(** * NoteKeeper: the persistent store ([db]) and its lookup helpers ([utils.js])

    A shallow embedding of the data-persistence core of the NoteKeeper
    application: the exported [db] object with its [post], [get], [update]
    and [delete] operations, the helpers it imports from
    [Assets/JS/utils.js], and the two platform services they rest on (the
    array methods and [JSON.stringify] / [JSON.parse] over the one
    [localStorage] slot).

    Conventions of the embedding.
    - A JavaScript string is a [string]; each character stands for one code
      unit.
    - A Number is an integer [Z]: the only Numbers of the store are
      millisecond timestamps, on which Number arithmetic and printing are
      exact.
    - A note is a plain object whose properties are strings or Numbers; it
      is a finite map from property names to values, so spreading and
      [Object.assign] are map unions.  The order in which an object
      enumerates its properties is not kept: no operation of [db] observes
      it.  A notebook and the store have the fixed shape their constructors
      give them and are records.
    - An object reference obtained from [find] is the position of the object
      in its array together with the object read there; a mutation through
      the reference is an update of the array at that position.
    - [new Date().getTime()] is an input of the operation that reads it.
    - An operation is a function from the state (the module variable
      [noteKeeperDB] and the text held in the storage slot) to a completion
      and a state; a raised exception is the completion [Throw]. *)

From Stdlib Require Import ZArith String Ascii DecimalString DecimalZ Lia.
From stdpp Require Import base option list gmap strings.

Local Open Scope Z_scope.

(** ** Values and data model *)

Inductive jsval : Type :=
  | JStr (s : string)
  | JNum (z : Z).

#[global] Instance jsval_eq_dec : EqDecision jsval.
Proof. solve_decision. Defined.

(** A note object, [{ id, notebookId, title, text, postedOn, ... }]. *)
Abbreviation Note := (gmap string jsval).

(** A notebook object, [{ id, name, notes }]. *)
Record Notebook : Type := mkNotebook {
  notebook_id : string;
  notebook_name : string;
  notebook_notes : list Note
}.

(** The store object, [{ notebooks }]. *)
Record Store : Type := mkStore {
  notebooks : list Notebook
}.

#[global] Instance Notebook_eq_dec : EqDecision Notebook.
Proof. solve_decision. Defined.

#[global] Instance Store_eq_dec : EqDecision Store.
Proof. solve_decision. Defined.

Definition set_name (name : string) (nb : Notebook) : Notebook :=
  mkNotebook (notebook_id nb) name (notebook_notes nb).

Definition set_notes (f : list Note → list Note) (nb : Notebook) : Notebook :=
  mkNotebook (notebook_id nb) (notebook_name nb) (f (notebook_notes nb)).

(** ** Array and object built-ins used by the code *)

Module Array.

(** [arr.push(x)] *)
Definition push {A} (x : A) (arr : list A) : list A := arr ++ [x].

(** [arr.unshift(x)] *)
Definition unshift {A} (x : A) (arr : list A) : list A := x :: arr.

(** [arr.find(p)]: the first element satisfying [p], here with its
    position, or [None] for [undefined]. *)
Definition find {A} (p : A → bool) (arr : list A) : option (nat * A) :=
  list_find (λ x, p x = true) arr.

(** [arr.findIndex(p)]: the position of the first element satisfying [p],
    or [-1]. *)
Definition findIndex {A} (p : A → bool) (arr : list A) : Z :=
  match list_find (λ x, p x = true) arr with
  | Some (i, _) => Z.of_nat i
  | None => -1
  end.

(** [arr.splice(start, deleteCount)], the array left behind.  A negative
    [start] counts from the end of the array. *)
Definition splice {A} (start deleteCount : Z) (arr : list A) : list A :=
  let len := Z.of_nat (length arr) in
  let actualStart :=
    if start <? 0 then Z.max (len + start) 0 else Z.min start len in
  let actualDeleteCount :=
    Z.min (Z.max deleteCount 0) (len - actualStart) in
  take (Z.to_nat actualStart) arr
    ++ drop (Z.to_nat (actualStart + actualDeleteCount)) arr.

End Array.

(** [Object.assign(target, source)]: every property of [source] is written
    over [target]. *)
Definition Object_assign (target source : Note) : Note := source ∪ target.

(** [n.toString()] on an integral Number. *)
Definition Number_toString (z : Z) : string :=
  NilZero.string_of_int (Z.to_int z).

(** ** JSON text of the store *)

Module JSON.

Definition dquote : ascii := "034"%char.
Definition bslash : ascii := "092"%char.

(** *** Writing *)

Definition hex_digit (n : N) : ascii :=
  if (n <? 10)%N then ascii_of_N (48 + n) else ascii_of_N (87 + n).

(** One code unit inside a string literal (QuoteJSONString). *)
Definition quote_char (c : ascii) : string :=
  let n := N_of_ascii c in
  if Ascii.eqb c dquote then String bslash (String dquote EmptyString)
  else if Ascii.eqb c bslash then String bslash (String bslash EmptyString)
  else if (n =? 8)%N then String bslash "b"
  else if (n =? 12)%N then String bslash "f"
  else if (n =? 10)%N then String bslash "n"
  else if (n =? 13)%N then String bslash "r"
  else if (n =? 9)%N then String bslash "t"
  else if (n <? 32)%N then
    String bslash
      (String "u" (String "0" (String "0"
         (String (hex_digit (n / 16)) (String (hex_digit (n mod 16)) EmptyString)))))
  else String c EmptyString.

Fixpoint quote_chars (s : string) : string :=
  match s with
  | EmptyString => EmptyString
  | String c r => quote_char c +:+ quote_chars r
  end.

Definition quote (s : string) : string :=
  String dquote (quote_chars s +:+ String dquote EmptyString).

Definition write_value (v : jsval) : string :=
  match v with
  | JStr s => quote s
  | JNum z => Number_toString z
  end.

Fixpoint join (items : list string) : string :=
  match items with
  | [] => EmptyString
  | [x] => x
  | x :: rest => x +:+ "," +:+ join rest
  end.

Definition write_member (kv : string * jsval) : string :=
  quote kv.1 +:+ ":" +:+ write_value kv.2.

(** The properties of a note, in the order the map enumerates them. *)
Definition write_note (n : Note) : string :=
  "{" +:+ join (write_member <$> map_to_list n) +:+ "}".

Definition write_notebook (nb : Notebook) : string :=
  "{" +:+ quote "id" +:+ ":" +:+ quote (notebook_id nb)
  +:+ "," +:+ quote "name" +:+ ":" +:+ quote (notebook_name nb)
  +:+ "," +:+ quote "notes" +:+ ":"
  +:+ "[" +:+ join (write_note <$> notebook_notes nb) +:+ "]"
  +:+ "}".

(** [JSON.stringify(noteKeeperDB)] *)
Definition stringify (db : Store) : string :=
  "{" +:+ quote "notebooks" +:+ ":"
  +:+ "[" +:+ join (write_notebook <$> notebooks db) +:+ "]"
  +:+ "}".

(** *** Reading

    A reader consumes a prefix of the text and returns what it read with
    the rest of the text.  The readers accept the compact texts that
    [stringify] writes (no insignificant white space, the properties of a
    notebook in the order its constructor gives them); this is the only
    kind of text the application ever puts in the slot.  Any other text is
    treated as one on which [JSON.parse] raises. *)

Definition reader (A : Type) : Type := string → option (A * string).

Fixpoint expect (lit s : string) : option string :=
  match lit with
  | EmptyString => Some s
  | String c lit' =>
      match s with
      | String d s' => if Ascii.eqb c d then expect lit' s' else None
      | EmptyString => None
      end
  end.

Definition unhex (c : ascii) : option N :=
  let n := N_of_ascii c in
  if ((48 <=? n) && (n <=? 57))%N then Some (n - 48)%N
  else if ((97 <=? n) && (n <=? 102))%N then Some (n - 87)%N
  else if ((65 <=? n) && (n <=? 70))%N then Some (n - 55)%N
  else None.

(** The character a one-letter escape stands for. *)
Definition unescape (e : ascii) : option ascii :=
  if Ascii.eqb e dquote then Some dquote
  else if Ascii.eqb e bslash then Some bslash
  else if Ascii.eqb e "/" then Some "/"%char
  else if Ascii.eqb e "b" then Some "008"%char
  else if Ascii.eqb e "f" then Some "012"%char
  else if Ascii.eqb e "n" then Some "010"%char
  else if Ascii.eqb e "r" then Some "013"%char
  else if Ascii.eqb e "t" then Some "009"%char
  else None.

Definition cons_char (c : ascii) (r : option (string * string))
  : option (string * string) :=
  match r with
  | Some (s, rest) => Some (String c s, rest)
  | None => None
  end.

(** The characters of a string literal after its opening quote, up to and
    including the closing quote. *)
Fixpoint unquote_chars (s : string) : option (string * string) :=
  match s with
  | EmptyString => None
  | String c r =>
      if Ascii.eqb c dquote then Some (EmptyString, r)
      else if Ascii.eqb c bslash then
        match r with
        | String e r1 =>
            if Ascii.eqb e "u" then
              match r1 with
              | String a (String b (String h (String l r2))) =>
                  if Ascii.eqb a "0" && Ascii.eqb b "0" then
                    match unhex h, unhex l with
                    | Some x, Some y =>
                        cons_char (ascii_of_N (16 * x + y)) (unquote_chars r2)
                    | _, _ => None
                    end
                  else None
              | _ => None
              end
            else
              match unescape e with
              | Some ch => cons_char ch (unquote_chars r1)
              | None => None
              end
        | EmptyString => None
        end
      else if (N_of_ascii c <? 32)%N then None
      else cons_char c (unquote_chars r)
  end.

Definition read_string : reader string := λ s,
  match s with
  | String c r => if Ascii.eqb c dquote then unquote_chars r else None
  | EmptyString => None
  end.

Definition is_num_char (c : ascii) : bool :=
  let n := N_of_ascii c in
  Ascii.eqb c "-" || ((48 <=? n) && (n <=? 57))%N.

Fixpoint span_num (s : string) : string * string :=
  match s with
  | EmptyString => (EmptyString, EmptyString)
  | String c r =>
      if is_num_char c
      then let '(lit, rest) := span_num r in (String c lit, rest)
      else (EmptyString, s)
  end.

(** An integer literal, in the form [Number_toString] writes it. *)
Definition read_number : reader Z := λ s,
  let '(lit, rest) := span_num s in
  match NilZero.int_of_string lit with
  | Some d =>
      let z := Z.of_int d in
      if String.eqb (Number_toString z) lit then Some (z, rest) else None
  | None => None
  end.

Definition read_value : reader jsval := λ s,
  match s with
  | String c _ =>
      if Ascii.eqb c dquote
      then match read_string s with
           | Some (x, rest) => Some (JStr x, rest)
           | None => None
           end
      else match read_number s with
           | Some (z, rest) => Some (JNum z, rest)
           | None => None
           end
  | EmptyString => None
  end.

(** One or more comma-separated items, then the closing bracket. *)
Fixpoint read_items {A} (p : reader A) (close : ascii) (fuel : nat)
    (s : string) : option (list A * string) :=
  match fuel with
  | O => None
  | S fuel' =>
      match p s with
      | Some (x, String c r) =>
          if Ascii.eqb c "," then
            match read_items p close fuel' r with
            | Some (xs, rest) => Some (x :: xs, rest)
            | None => None
            end
          else if Ascii.eqb c close then Some ([x], r)
          else None
      | _ => None
      end
  end.

(** Zero or more items between [open] and [close]. *)
Definition read_seq {A} (p : reader A) (open close : ascii) : reader (list A) :=
  λ s,
  match s with
  | String o (String c r as body) =>
      if Ascii.eqb o open then
        if Ascii.eqb c close then Some ([], r)
        else read_items p close (String.length body) body
      else None
  | _ => None
  end.

Definition read_member : reader (string * jsval) := λ s,
  match read_string s with
  | Some (k, rest) =>
      match expect ":" rest with
      | Some rest' =>
          match read_value rest' with
          | Some (v, rest'') => Some ((k, v), rest'')
          | None => None
          end
      | None => None
      end
  | None => None
  end.

(** Properties are created in the order of the text; a repeated name
    overwrites the earlier value. *)
Definition object_of_members (kvs : list (string * jsval)) : Note :=
  fold_left (λ (n : Note) kv, <[kv.1 := kv.2]> n) kvs ∅.

Definition read_note : reader Note := λ s,
  match read_seq read_member "{" "}" s with
  | Some (kvs, rest) => Some (object_of_members kvs, rest)
  | None => None
  end.

Definition read_notebook : reader Notebook := λ s,
  s1 ← expect ("{" +:+ quote "id" +:+ ":") s;
  '(i, s2) ← read_string s1;
  s3 ← expect ("," +:+ quote "name" +:+ ":") s2;
  '(n, s4) ← read_string s3;
  s5 ← expect ("," +:+ quote "notes" +:+ ":") s4;
  '(ns, s6) ← read_seq read_note "[" "]" s5;
  s7 ← expect "}" s6;
  Some (mkNotebook i n ns, s7).

Definition read_store : reader Store := λ s,
  s1 ← expect ("{" +:+ quote "notebooks" +:+ ":") s;
  '(nbs, s2) ← read_seq read_notebook "[" "]" s1;
  s3 ← expect "}" s2;
  Some (mkStore nbs, s3).

(** What may follow a value in the text: anything but the characters of a
    number. *)
Definition delimited (rest : string) : Prop :=
  match rest with
  | String c _ => is_num_char c = false
  | EmptyString => True
  end.

Fixpoint all_num (s : string) : bool :=
  match s with
  | EmptyString => true
  | String c r => is_num_char c && all_num r
  end.

(** The characters a JSON text can begin with: white space, or the first
    character of an object, an array, a string, a number or a literal. *)
Definition may_start_json (c : ascii) : bool :=
  let n := N_of_ascii c in
  (n =? 32)%N || (n =? 9)%N || (n =? 10)%N || (n =? 13)%N
  || Ascii.eqb c "{" || Ascii.eqb c "[" || Ascii.eqb c dquote
  || is_num_char c
  || Ascii.eqb c "t" || Ascii.eqb c "f" || Ascii.eqb c "n".

(** A text that is empty or begins with a character no JSON text begins
    with: on such a text [JSON.parse] raises a SyntaxError. *)
Definition not_json (text : string) : bool :=
  match text with
  | EmptyString => true
  | String c _ => negb (may_start_json c)
  end.

(** [JSON.parse(text)], [None] when it raises. *)
Definition parse (text : string) : option Store :=
  match read_store text with
  | Some (db, EmptyString) => Some db
  | _ => None
  end.

End JSON.

(** ** Lookup helpers ([utils.js]) *)

Module Utils.

(** [new Date().getTime().toString()], the clock reading given. *)
Definition generateID (now : Z) : string := Number_toString now.

(** [note.id === noteId] for a string [noteId]: an absent property reads
    [undefined], and a Number is never strictly equal to a string. *)
Definition has_id (noteId : string) (note : Note) : bool :=
  match note !! "id" with
  | Some (JStr s) => String.eqb s noteId
  | _ => false
  end.

(** [db.notebooks.find((notebook) => notebook.id == notebookId)]; both
    sides are strings, on which [==] is string equality. *)
Definition findNotebook (db : Store) (notebookId : string)
  : option (nat * Notebook) :=
  Array.find (λ notebook, String.eqb (notebook_id notebook) notebookId)
    (notebooks db).

(** [db.notebooks.findIndex((item) => item.id === notebookId)] *)
Definition findNotebookIndex (db : Store) (notebookId : string) : Z :=
  Array.findIndex (λ item, String.eqb (notebook_id item) notebookId)
    (notebooks db).

(** The loop of [findNote] over the notebooks from position [i] on: the
    first notebook in which [find] succeeds ends the loop. *)
Fixpoint findNote_loop (i : nat) (nbs : list Notebook) (noteId : string)
  : option (nat * nat * Note) :=
  match nbs with
  | [] => None
  | notebook :: rest =>
      match Array.find (has_id noteId) (notebook_notes notebook) with
      | Some (j, note) => Some (i, j, note)
      | None => findNote_loop (S i) rest noteId
      end
  end.

(** The note found, with the positions of its notebook and of the note in
    that notebook. *)
Definition findNote (db : Store) (noteId : string)
  : option (nat * nat * Note) :=
  findNote_loop 0 (notebooks db) noteId.

(** [notebook.notes.findIndex((note) => note.id === noteId)] *)
Definition findNoteIndex (notebook : Notebook) (noteId : string) : Z :=
  Array.findIndex (has_id noteId) (notebook_notes notebook).

(** [getGreetingMsg(currentHour)]; the template literal is a
    concatenation. *)
Definition getGreetingMsg (currentHour : Z) : string :=
  let greeting :=
    if currentHour <? 5 then "Night"
    else if currentHour <? 12 then "Morning"
    else if currentHour <? 15 then "Noon"
    else if currentHour <? 17 then "Afternoon"
    else if currentHour <? 20 then "Evening"
    else "Night" in
  "Good " +:+ greeting.

(** [getRelativeTime(milliSeconds)], on the clock reading [currentTime].
    [Math.floor] of a quotient is the floor division of [Z]; flooring after
    each of the two divisions of [minute] gives the floor of the whole
    quotient. *)
Definition getRelativeTime (currentTime milliSeconds : Z) : string :=
  let minute := (currentTime - milliSeconds) / 1000 / 60 in
  let hour := minute / 60 in
  let day := hour / 24 in
  if minute <? 1 then "Just now"
  else if minute <? 60 then Number_toString minute +:+ " min ago"
  else if hour <? 24 then Number_toString hour +:+ " hour ago"
  else if day =? 1 then Number_toString day +:+ " day ago"
  else Number_toString day +:+ " days ago".

End Utils.

(** ** The persistent store ([db]) *)

Inductive error : Type := SyntaxError | TypeError.

Inductive completion (A : Type) : Type :=
  | Normal (a : A)
  | Throw (e : error).
Arguments Normal {A} a.
Arguments Throw {A} e.

(** The module variable and the text in the slot [noteKeeperDB] of
    [localStorage]. *)
Record State : Type := mkState {
  noteKeeperDB : Store;
  localStorage : string
}.

Definition JS (A : Type) : Type := State → completion A * State.

#[global] Instance JS_ret : MRet JS := λ A a st, (Normal a, st).

#[global] Instance JS_bind : MBind JS := λ A B k m st,
  match m st with
  | (Normal a, st') => k a st'
  | (Throw e, st') => (Throw e, st')
  end.

Definition throw {A} (e : error) : JS A := λ st, (Throw e, st).

Module Db.
Import Utils.

(** [noteKeeperDB], read. *)
Definition get_db : JS Store := λ st, (Normal (noteKeeperDB st), st).

(** A mutation of the array [noteKeeperDB.notebooks] in place. *)
Definition modify_notebooks (f : list Notebook → list Notebook) : JS unit :=
  λ st,
  (Normal (),
   mkState (mkStore (f (notebooks (noteKeeperDB st)))) (localStorage st)).

(** [initDB], run once when the module is loaded, on what [getItem] gives
    for the slot.  An absent item and the empty text are both falsy.  The
    result is [None] when [JSON.parse] raises. *)
Definition initDB (item : option string) : option State :=
  match item with
  | Some (String c r as text) =>
      match JSON.parse text with
      | Some db => Some (mkState db text)
      | None => None
      end
  | _ =>
      let db := mkStore [] in
      Some (mkState db (JSON.stringify db))
  end.

Definition readDB : JS unit := λ st,
  match JSON.parse (localStorage st) with
  | Some db => (Normal (), mkState db (localStorage st))
  | None => (Throw SyntaxError, st)
  end.

Definition writeDB : JS unit := λ st,
  (Normal (), mkState (noteKeeperDB st) (JSON.stringify (noteKeeperDB st))).

(** [db.post.notebook(name)] *)
Definition post_notebook (now : Z) (name : string) : JS Notebook :=
  readDB ;;
  let notebookData := mkNotebook (generateID now) name [] in
  modify_notebooks (Array.push notebookData) ;;
  writeDB ;;
  mret notebookData.

(** The object literal
    [{ id: generateID(), notebookId, ...object, postedOn: new Date().getTime() }]. *)
Definition new_note (now_id now_posted : Z) (notebookId : string)
    (object : Note) : Note :=
  <["postedOn" := JNum now_posted]>
    (Object_assign
       (<["notebookId" := JStr notebookId]>
          (<["id" := JStr (generateID now_id)]> ∅))
       object).

(** [db.post.note(notebookId, object)]; the clock is read twice. *)
Definition post_note (now_id now_posted : Z) (notebookId : string)
    (object : Note) : JS Note :=
  readDB ;;
  db ← get_db;
  let notebook := findNotebook db notebookId in
  let noteData := new_note now_id now_posted notebookId object in
  match notebook with
  | Some (i, _) =>
      modify_notebooks (alter (set_notes (Array.unshift noteData)) i)
  | None => mret ()
  end ;;
  writeDB ;;
  mret noteData.

(** [db.get.notebook()], after its [readDB()]. *)
Definition get_notebook_loaded : JS (list Notebook) :=
  db ← get_db;
  mret (notebooks db).

(** [db.get.notebook()] *)
Definition get_notebook : JS (list Notebook) :=
  readDB ;;
  get_notebook_loaded.

(** [db.get.note(notebookId)], after its [readDB()]. *)
Definition get_note_loaded (notebookId : string) : JS (list Note) :=
  db ← get_db;
  match findNotebook db notebookId with
  | Some (_, notebook) => mret (notebook_notes notebook)
  | None => throw TypeError
  end.

(** [db.get.note(notebookId)] *)
Definition get_note (notebookId : string) : JS (list Note) :=
  readDB ;;
  get_note_loaded notebookId.

(** [db.update.notebook(notebookId, name)] *)
Definition update_notebook (notebookId name : string) : JS Notebook :=
  readDB ;;
  db ← get_db;
  match findNotebook db notebookId with
  | Some (i, notebook) =>
      modify_notebooks (alter (set_name name) i) ;;
      writeDB ;;
      mret (set_name name notebook)
  | None => throw TypeError
  end.

(** [db.update.note(noteId, object)]; [Object.assign] writes into the
    note found and returns it. *)
Definition update_note (noteId : string) (object : Note) : JS Note :=
  readDB ;;
  db ← get_db;
  match findNote db noteId with
  | Some (i, j, oldNote) =>
      modify_notebooks
        (alter (set_notes (alter (λ note, Object_assign note object) j)) i) ;;
      let newNote := Object_assign oldNote object in
      writeDB ;;
      mret newNote
  | None => throw TypeError
  end.

(** [db.delete.notebook(notebookId)] *)
Definition delete_notebook (notebookId : string) : JS unit :=
  readDB ;;
  db ← get_db;
  let notebookIndex := findNotebookIndex db notebookId in
  modify_notebooks (Array.splice notebookIndex 1) ;;
  writeDB.

(** [db.delete.note(notebookId, noteId)]; the notes of the notebook found
    are spliced in place and returned. *)
Definition delete_note (notebookId noteId : string) : JS (list Note) :=
  readDB ;;
  db ← get_db;
  match findNotebook db notebookId with
  | Some (i, notebook) =>
      let noteIndex := findNoteIndex notebook noteId in
      modify_notebooks (alter (set_notes (Array.splice noteIndex 1)) i) ;;
      writeDB ;;
      mret (Array.splice noteIndex 1 (notebook_notes notebook))
  | None => throw TypeError
  end.

End Db.

(** ** The theme toggler *)

Module Theme.

(** The [data-theme] attribute of the document element ([None] when it is
    not set) and the item [theme] of [localStorage]. *)
Record State : Type := mkState {
  data_theme : option string;
  stored_theme : option string
}.

(** [getAttribute("data-theme") || "light"]: an absent attribute and the
    empty text are both falsy. *)
Definition currentTheme (st : State) : string :=
  match data_theme st with
  | Some (String c r as theme) => theme
  | _ => "light"
  end.

(** [toggleTheme()] *)
Definition toggleTheme (st : State) : State :=
  let newTheme := if String.eqb (currentTheme st) "light" then "dark" else "light" in
  mkState (Some newTheme) (Some newTheme).

(** [storedTheme ?? (systemThemeIsDark ? "dark" : "light")] *)
Definition initialTheme (storedTheme : option string) (systemThemeIsDark : bool)
  : string :=
  match storedTheme with
  | Some theme => theme
  | None => if systemThemeIsDark then "dark" else "light"
  end.

(** The initialisation the module runs when it is loaded: the attribute is
    set, the storage is left as it is. *)
Definition init (storedTheme : option string) (systemThemeIsDark : bool) : State :=
  mkState (Some (initialTheme storedTheme systemThemeIsDark)) storedTheme.

End Theme.

(** ** Sequences of operations *)

(** A call of one of the operations of [db], with its arguments and the
    clock readings it meets. *)
Inductive request : Type :=
  | PostNotebook (now : Z) (name : string)
  | PostNote (now_id now_posted : Z) (notebookId : string) (object : Note)
  | UpdateNotebook (notebookId name : string)
  | UpdateNote (noteId : string) (object : Note)
  | DeleteNotebook (notebookId : string)
  | DeleteNote (notebookId noteId : string).

(** The state a call leaves, whether it returns or raises. *)
Definition exec (r : request) (st : State) : State :=
  match r with
  | PostNotebook now name => (Db.post_notebook now name st).2
  | PostNote t1 t2 notebookId object => (Db.post_note t1 t2 notebookId object st).2
  | UpdateNotebook notebookId name => (Db.update_notebook notebookId name st).2
  | UpdateNote noteId object => (Db.update_note noteId object st).2
  | DeleteNotebook notebookId => (Db.delete_notebook notebookId st).2
  | DeleteNote notebookId noteId => (Db.delete_note notebookId noteId st).2
  end.

Definition run (rs : list request) (st : State) : State :=
  fold_left (λ s r, exec r s) rs st.

(** The state in which the module leaves an empty [localStorage]. *)
Definition empty_state : State :=
  mkState (mkStore []) (JSON.stringify (mkStore [])).

(** The slot holds a text of the store [db]. *)
Definition stored (db : Store) (st : State) : Prop :=
  JSON.parse (localStorage st) = Some db.

(** The state after [readDB()] has loaded [db]. *)
Definition loaded (db : Store) (st : State) : State :=
  mkState db (localStorage st).

(** The state after [writeDB()] has persisted [db]. *)
Definition saved (db : Store) : State :=
  mkState db (JSON.stringify db).

(** The module variable is what the slot holds. *)
Definition coherent (st : State) : Prop := stored (noteKeeperDB st) st.

(** Every note of every notebook carries the id of that notebook in its
    [notebookId] property. *)
Definition note_belongs (nb : Notebook) (n : Note) : Prop :=
  n !! "notebookId" = Some (JStr (notebook_id nb)).

Definition notes_belong (db : Store) : Prop :=
  Forall (λ nb, Forall (note_belongs nb) (notebook_notes nb)) (notebooks db).

#[global] Instance notes_belong_dec (db : Store) : Decision (notes_belong db).
Proof. unfold notes_belong, note_belongs. apply _. Defined.

(** The object given to a call has no [notebookId] property of its own. *)
Definition plain_object (r : request) : Prop :=
  match r with
  | PostNote _ _ _ object | UpdateNote _ object => object !! "notebookId" = None
  | _ => True
  end.

#[global] Instance plain_object_dec (r : request) : Decision (plain_object r).
Proof. destruct r; simpl; apply _. Defined.

(** The note at position [j] of the notebook at position [i]. *)
Definition note_at (db : Store) (i j : nat) : option Note :=
  nb ← notebooks db !! i; notebook_notes nb !! j.

(** ** Sample data *)

Module Sample.

Definition note_a : Note :=
  {[ "id" := JStr "11"; "notebookId" := JStr "1"; "title" := JStr "a";
     "text" := JStr "alpha"; "postedOn" := JNum 11 ]}.

Definition note_b : Note :=
  {[ "id" := JStr "12"; "notebookId" := JStr "1"; "title" := JStr "b";
     "text" := JStr "beta"; "postedOn" := JNum 12 ]}.

Definition work : Notebook := mkNotebook "1" "Work" [note_b; note_a].
Definition home : Notebook := mkNotebook "2" "Home" [].

Definition store : Store := mkStore [work; home].

(** The same notebooks in the other order. *)
Definition shelf : Store := mkStore [home; work].

(** What the modal submits: a title and a text. *)
Definition fields (title text : string) : Note :=
  {[ "title" := JStr title; "text" := JStr text ]}.

End Sample.

Example splice_inside : Array.splice 1 1 [10; 20; 30] = [10; 30].
Proof. reflexivity. Qed.

Example splice_not_found : Array.splice (-1) 1 [10; 20; 30] = [10; 20].
Proof. reflexivity. Qed.

Example splice_not_found_empty : Array.splice (-1) 1 (@nil Z) = [].
Proof. reflexivity. Qed.

Example findIndex_not_found :
  Utils.findNotebookIndex Sample.store "3" = -1.
Proof. reflexivity. Qed.

Example findNote_second :
  Utils.findNote Sample.store "11" = Some (0%nat, 1%nat, Sample.note_a).
Proof. reflexivity. Qed.

Example generateID_decimal : Utils.generateID 1700000000123 = "1700000000123".
Proof. reflexivity. Qed.

Example parse_stringify_sample :
  JSON.parse (JSON.stringify Sample.store) = Some Sample.store.
Proof. by vm_compute. Qed.

Example parse_garbage : JSON.parse "{}" = None.
Proof. reflexivity. Qed.

(** * Properties *)

(** ** The JSON text is read back as the store it was written from *)

Section JSONRoundTrip.
Import JSON.

Lemma append_String (c : ascii) (a b : string) :
  String c a +:+ b = String c (a +:+ b).
Proof. reflexivity. Qed.

Lemma append_Empty (b : string) : EmptyString +:+ b = b.
Proof. reflexivity. Qed.

Lemma append_assoc (a b c : string) : (a +:+ b) +:+ c = a +:+ (b +:+ c).
Proof.
  induction a as [|x a IH]; [done |].
  by rewrite !append_String, IH.
Qed.

Lemma length_append (a b : string) :
  String.length (a +:+ b) = (String.length a + String.length b)%nat.
Proof.
  induction a as [|x a IH]; [done |].
  rewrite append_String. simpl. by rewrite IH.
Qed.

Lemma expect_append (lit rest : string) : expect lit (lit +:+ rest) = Some rest.
Proof.
  induction lit as [|c lit IH]; [done |].
  rewrite append_String. simpl. by rewrite Ascii.eqb_refl.
Qed.

Lemma unquote_quote_char (c : ascii) (t : string) :
  unquote_chars (quote_char c +:+ t) = cons_char c (unquote_chars t).
Proof. destruct c as [[] [] [] [] [] [] [] []]; reflexivity. Qed.

Lemma unquote_quote_chars (s rest : string) :
  unquote_chars (quote_chars s +:+ String dquote rest) = Some (s, rest).
Proof.
  induction s as [|c r IH]; [reflexivity |].
  simpl. by rewrite append_assoc, unquote_quote_char, IH.
Qed.

Lemma read_string_quote (s rest : string) :
  read_string (quote s +:+ rest) = Some (s, rest).
Proof.
  unfold quote, read_string.
  rewrite append_String, append_assoc, append_String, append_Empty.
  simpl. apply unquote_quote_chars.
Qed.

Lemma all_num_uint (d : Decimal.uint) :
  all_num (NilEmpty.string_of_uint d) = true.
Proof. induction d; simpl; auto. Qed.

Lemma all_num_toString (z : Z) : all_num (Number_toString z) = true.
Proof.
  unfold Number_toString.
  destruct (Z.to_int z) as [d|d]; simpl.
  - destruct d; try reflexivity; apply (all_num_uint (_ d)).
  - destruct d; try reflexivity; apply (all_num_uint (_ d)).
Qed.

Lemma toString_nonempty (z : Z) :
  ∃ c r, Number_toString z = String c r ∧ is_num_char c = true.
Proof.
  pose proof (all_num_toString z) as H.
  destruct (Number_toString z) as [|c r] eqn:E.
  - exfalso. unfold Number_toString in E.
    destruct (Z.to_int z) as [d|d]; [|discriminate].
    destruct d; discriminate.
  - simpl in H. apply andb_prop in H as [H _]. eauto.
Qed.

Lemma span_num_append (lit rest : string) :
  all_num lit = true → delimited rest →
  span_num (lit +:+ rest) = (lit, rest).
Proof.
  induction lit as [|c lit IH]; intros Hlit Hrest.
  - rewrite append_Empty. destruct rest as [|c r]; [done |].
    simpl in *. by rewrite Hrest.
  - simpl in Hlit. apply andb_prop in Hlit as [Hc Hlit].
    rewrite append_String. simpl. by rewrite Hc, IH.
Qed.

Lemma to_int_proper (z : Z) :
  Z.to_int z ≠ Decimal.Pos Decimal.Nil ∧ Z.to_int z ≠ Decimal.Neg Decimal.Nil.
Proof.
  destruct z as [|p|p]; simpl; split; try discriminate;
    intros [= H]; by apply DecimalPos.Unsigned.to_uint_nonnil in H.
Qed.

Lemma read_number_toString (z : Z) (rest : string) :
  delimited rest →
  read_number (Number_toString z +:+ rest) = Some (z, rest).
Proof.
  intros Hrest. unfold read_number.
  rewrite span_num_append by auto using all_num_toString.
  unfold Number_toString at 1.
  destruct (to_int_proper z) as [H1 H2].
  rewrite NilZero.isi by done.
  by rewrite DecimalZ.of_to, String.eqb_refl.
Qed.

Lemma read_value_write (v : jsval) (rest : string) :
  delimited rest →
  read_value (write_value v +:+ rest) = Some (v, rest).
Proof.
  intros Hrest. destruct v as [s|z]; simpl.
  - pose proof (read_string_quote s rest) as H.
    unfold quote in *. rewrite append_String in *.
    unfold read_value. unfold read_string in H. simpl in H.
    by rewrite H.
  - destruct (toString_nonempty z) as (c & r & E & Hc).
    pose proof (read_number_toString z rest Hrest) as H.
    rewrite E in *. rewrite append_String in *.
    unfold read_value. rewrite H.
    destruct (Ascii.eqb c dquote) eqn:Ec; [|done].
    apply Ascii.eqb_eq in Ec. by subst c.
Qed.

(** *** Sequences *)

Lemma length_join_closed (items : list string) (c : ascii) (rest : string) :
  (length items ≤ String.length (join items +:+ String c rest))%nat.
Proof.
  induction items as [|x [|y items] IH].
  - simpl. lia.
  - simpl. rewrite length_append. simpl. lia.
  - change (join (x :: y :: items)) with (x +:+ "," +:+ join (y :: items)).
    rewrite !append_assoc, length_append, append_String, append_Empty.
    simpl in *. lia.
Qed.

Section Items.
Context {A : Type} (p : reader A) (w : A → string) (close : ascii).
Hypothesis p_w : ∀ x rest, delimited rest → p (w x +:+ rest) = Some (x, rest).
Hypothesis close_not_num : is_num_char close = false.
Hypothesis close_not_comma : Ascii.eqb "," close = false.

Lemma read_items_join (xs : list A) (fuel : nat) (rest : string) :
  xs ≠ [] → (length xs ≤ fuel)%nat →
  read_items p close fuel (join (w <$> xs) +:+ String close rest)
  = Some (xs, rest).
Proof using p_w close_not_num close_not_comma.
  revert fuel. induction xs as [|x [|y xs] IH]; intros fuel Hne Hfuel.
  - done.
  - destruct fuel as [|fuel]; [simpl in Hfuel; lia |].
    simpl. rewrite p_w by done.
    rewrite Ascii.eqb_sym, close_not_comma.
    by rewrite Ascii.eqb_refl.
  - destruct fuel as [|fuel]; [simpl in Hfuel; lia |].
    change (join (w <$> x :: y :: xs))
      with (w x +:+ "," +:+ join (w <$> y :: xs)).
    rewrite !append_assoc, append_String, append_Empty.
    simpl read_items. rewrite p_w by done.
    rewrite IH; [done | done | simpl in *; lia].
Qed.

Lemma read_seq_join (open : ascii) (xs : list A) (rest : string) :
  (∀ x, ∃ c r, w x = String c r ∧ Ascii.eqb c close = false) →
  read_seq p open close
    (String open (join (w <$> xs) +:+ String close rest))
  = Some (xs, rest).
Proof using p_w close_not_num close_not_comma.
  intros Hw. destruct xs as [|x xs].
  - simpl. rewrite append_Empty. simpl.
    by rewrite !Ascii.eqb_refl.
  - pose proof (read_items_join (x :: xs)
                  (String.length (join (w <$> x :: xs) +:+ String close rest))
                  rest) as H.
    pose proof (length_join_closed (w <$> x :: xs) close rest) as Hlen.
    rewrite length_fmap in Hlen.
    specialize (H ltac:(done) Hlen).
    destruct (Hw x) as (c & r & Ex & Ec).
    assert (∃ body, join (w <$> x :: xs) +:+ String close rest = String c body)
      as [body Eb].
    { destruct xs as [|y xs].
      - simpl. rewrite Ex, append_String. eauto.
      - change (join (w <$> x :: y :: xs))
          with (w x +:+ "," +:+ join (w <$> y :: xs)).
        rewrite Ex, !append_String. eauto. }
    rewrite Eb in *. unfold read_seq.
    by rewrite Ascii.eqb_refl, Ec.
Qed.
End Items.

(** *** Notes, notebooks, the store *)

Lemma read_member_write (kv : string * jsval) (rest : string) :
  delimited rest →
  read_member (write_member kv +:+ rest) = Some (kv, rest).
Proof.
  intros Hrest. destruct kv as [k v]. unfold read_member, write_member.
  simpl fst; simpl snd.
  rewrite !append_assoc, read_string_quote, expect_append.
  by rewrite read_value_write.
Qed.

Lemma object_of_members_fold (kvs : list (string * jsval)) (n0 : Note) :
  NoDup (kvs.*1) →
  fold_left (λ (n : Note) kv, <[kv.1 := kv.2]> n) kvs n0
  = list_to_map kvs ∪ n0.
Proof.
  revert n0. induction kvs as [|[k v] kvs IH]; intros n0 Hnd.
  - simpl. by rewrite (left_id_L ∅ (∪)).
  - apply NoDup_cons in Hnd as [Hk Hnd]. simpl.
    rewrite IH by done.
    rewrite <- insert_union_l, insert_union_r; [done |].
    by apply not_elem_of_list_to_map_1.
Qed.

Lemma object_of_members_to_list (n : Note) :
  object_of_members (map_to_list n) = n.
Proof.
  unfold object_of_members.
  rewrite object_of_members_fold by apply NoDup_fst_map_to_list.
  by rewrite list_to_map_to_list, (right_id_L ∅ (∪)).
Qed.

Lemma write_member_starts (kv : string * jsval) :
  ∃ c r, write_member kv = String c r ∧ Ascii.eqb c "}" = false.
Proof.
  unfold write_member, quote. rewrite append_String. eauto.
Qed.

Lemma read_note_write (n : Note) (rest : string) :
  read_note (write_note n +:+ rest) = Some (n, rest).
Proof.
  unfold read_note, write_note.
  rewrite !append_assoc, append_String, append_Empty.
  rewrite append_String, append_Empty.
  rewrite (read_seq_join read_member write_member)
    by auto using read_member_write, write_member_starts.
  by rewrite object_of_members_to_list.
Qed.

Lemma write_note_starts (n : Note) :
  ∃ c r, write_note n = String c r ∧ Ascii.eqb c "]" = false.
Proof. unfold write_note. rewrite append_String. eauto. Qed.

(** The text after a property name and its colon. *)
Lemma expect_key (pre k rest : string) :
  expect (pre +:+ quote k +:+ ":") (pre +:+ quote k +:+ ":" +:+ rest)
  = Some rest.
Proof.
  rewrite <- (append_assoc (quote k) ":" rest).
  rewrite <- (append_assoc pre (quote k +:+ ":") rest).
  apply expect_append.
Qed.

Lemma read_notebook_write (nb : Notebook) (rest : string) :
  read_notebook (write_notebook nb +:+ rest) = Some (nb, rest).
Proof.
  destruct nb as [i n ns]. unfold read_notebook, write_notebook.
  cbn [notebook_id notebook_name notebook_notes].
  rewrite !append_assoc.
  rewrite expect_key. cbn [mbind option_bind].
  rewrite read_string_quote. cbn [mbind option_bind].
  rewrite expect_key. cbn [mbind option_bind].
  rewrite read_string_quote. cbn [mbind option_bind].
  rewrite expect_key. cbn [mbind option_bind].
  rewrite (append_String _ EmptyString), append_Empty.
  rewrite (append_String "]"), append_Empty.
  rewrite (read_seq_join read_note write_note)
    by (auto using write_note_starts; intros; apply read_note_write).
  cbn [mbind option_bind]. by rewrite expect_append.
Qed.

Lemma write_notebook_starts (nb : Notebook) :
  ∃ c r, write_notebook nb = String c r ∧ Ascii.eqb c "]" = false.
Proof. unfold write_notebook. rewrite append_String. eauto. Qed.

Lemma read_store_write (db : Store) (rest : string) :
  read_store (stringify db +:+ rest) = Some (db, rest).
Proof.
  destruct db as [nbs]. unfold read_store, stringify. cbn [notebooks].
  rewrite !append_assoc.
  rewrite expect_key. cbn [mbind option_bind].
  rewrite (append_String _ EmptyString), append_Empty.
  rewrite (append_String "]"), append_Empty.
  rewrite (read_seq_join read_notebook write_notebook)
    by (auto using write_notebook_starts; intros; apply read_notebook_write).
  cbn [mbind option_bind]. by rewrite expect_append.
Qed.

(** [JSON.parse(JSON.stringify(db))] is [db]. *)
Lemma parse_stringify (db : Store) : parse (stringify db) = Some db.
Proof.
  unfold parse.
  assert (stringify db = stringify db +:+ EmptyString) as ->.
  { generalize (stringify db). intros t.
    induction t as [|c t IH]; [done |].
    by rewrite append_String, <- IH. }
  by rewrite read_store_write.
Qed.

End JSONRoundTrip.

(** ** What each operation does to a stored store *)

Section Operations.
Import Utils Db.

Context (db : Store) (st : State).
Hypothesis Hst : stored db st.

Lemma readDB_stored : readDB st = (Normal (), loaded db st).
Proof using Hst. unfold readDB. by rewrite Hst. Qed.

Ltac run_op :=
  unfold mbind, JS_bind; rewrite readDB_stored;
  cbn [get_db modify_notebooks writeDB mret JS_ret throw loaded
       noteKeeperDB localStorage notebooks].

Lemma post_notebook_stored (now : Z) (name : string) :
  let notebookData := mkNotebook (generateID now) name [] in
  post_notebook now name st
  = (Normal notebookData, saved (mkStore (notebooks db ++ [notebookData]))).
Proof using Hst. unfold post_notebook. by run_op. Qed.

Lemma post_note_stored (t1 t2 : Z) (notebookId : string) (object : Note) :
  post_note t1 t2 notebookId object st
  = (Normal (new_note t1 t2 notebookId object),
     saved (mkStore
              match findNotebook db notebookId with
              | Some (i, _) =>
                  alter (set_notes (Array.unshift
                                      (new_note t1 t2 notebookId object))) i
                    (notebooks db)
              | None => notebooks db
              end)).
Proof using Hst.
  unfold post_note. run_op.
  destruct (findNotebook db notebookId) as [[i nb]|]; [done |].
  by destruct db.
Qed.

Lemma get_notebook_stored :
  get_notebook st = (Normal (notebooks db), loaded db st).
Proof using Hst. unfold get_notebook, get_notebook_loaded. by run_op. Qed.

Lemma get_note_stored (notebookId : string) :
  get_note notebookId st
  = (match findNotebook db notebookId with
     | Some (_, notebook) => Normal (notebook_notes notebook)
     | None => Throw TypeError
     end, loaded db st).
Proof using Hst.
  unfold get_note, get_note_loaded. run_op.
  by destruct (findNotebook db notebookId) as [[i nb]|].
Qed.

Lemma update_notebook_stored (notebookId name : string) :
  update_notebook notebookId name st
  = match findNotebook db notebookId with
    | Some (i, notebook) =>
        (Normal (set_name name notebook),
         saved (mkStore (alter (set_name name) i (notebooks db))))
    | None => (Throw TypeError, loaded db st)
    end.
Proof using Hst.
  unfold update_notebook. run_op.
  by destruct (findNotebook db notebookId) as [[i nb]|].
Qed.

Lemma update_note_stored (noteId : string) (object : Note) :
  update_note noteId object st
  = match findNote db noteId with
    | Some (i, j, oldNote) =>
        (Normal (Object_assign oldNote object),
         saved (mkStore
                  (alter (set_notes
                            (alter (λ note, Object_assign note object) j)) i
                     (notebooks db))))
    | None => (Throw TypeError, loaded db st)
    end.
Proof using Hst.
  unfold update_note. run_op.
  by destruct (findNote db noteId) as [[[i j] n]|].
Qed.

Lemma delete_notebook_stored (notebookId : string) :
  delete_notebook notebookId st
  = (Normal (),
     saved (mkStore (Array.splice (findNotebookIndex db notebookId) 1
                       (notebooks db)))).
Proof using Hst. unfold delete_notebook. by run_op. Qed.

Lemma delete_note_stored (notebookId noteId : string) :
  delete_note notebookId noteId st
  = match findNotebook db notebookId with
    | Some (i, notebook) =>
        let noteIndex := findNoteIndex notebook noteId in
        (Normal (Array.splice noteIndex 1 (notebook_notes notebook)),
         saved (mkStore (alter (set_notes (Array.splice noteIndex 1)) i
                           (notebooks db))))
    | None => (Throw TypeError, loaded db st)
    end.
Proof using Hst.
  unfold delete_note. run_op.
  by destruct (findNotebook db notebookId) as [[i nb]|].
Qed.

End Operations.

(** ** Array built-ins and lookups *)

Section Lookups.
Import Utils.

(** Removal at a position inside the array. *)
Lemma splice_at {A} (i : nat) (arr : list A) :
  (i < length arr)%nat →
  Array.splice (Z.of_nat i) 1 arr = delete i arr.
Proof.
  intros Hi. unfold Array.splice.
  destruct (Z.ltb_spec (Z.of_nat i) 0) as [?|_]; [lia |].
  rewrite delete_take_drop.
  replace (Z.to_nat (Z.of_nat i `min` Z.of_nat (length arr))) with i by lia.
  f_equal. f_equal. lia.
Qed.

(** Removal at [-1]: the last element goes, if there is one. *)
Lemma splice_minus_one {A} (arr : list A) :
  Array.splice (-1) 1 arr = take (length arr - 1) arr.
Proof.
  unfold Array.splice.
  destruct (Z.ltb_spec (-1) 0) as [_|?]; [|lia].
  destruct arr as [|x arr]; [done |].
  set (l := x :: arr). assert (0 < length l)%nat by (simpl; lia).
  replace (Z.to_nat ((Z.of_nat (length l) + -1) `max` 0))
    with (length l - 1)%nat by lia.
  rewrite drop_ge by lia. by rewrite (right_id_L [] (++)).
Qed.

(** A mutation of the element at a position, as an assignment there. *)
Lemma alter_at {A} (f : A → A) (i : nat) (arr : list A) (x : A) :
  arr !! i = Some x → alter f i arr = <[i := f x]> arr.
Proof.
  intros Hi. rewrite list_insert_alter.
  apply list_alter_ext; [|done]. intros y Hy. congruence.
Qed.

Lemma findIndex_Some {A} (p : A → bool) (arr : list A) (i : nat) (x : A) :
  Array.find p arr = Some (i, x) → Array.findIndex p arr = Z.of_nat i.
Proof. unfold Array.find, Array.findIndex. by intros ->. Qed.

Lemma findIndex_None {A} (p : A → bool) (arr : list A) :
  Forall (λ x, p x = false) arr → Array.findIndex p arr = -1.
Proof.
  intros H. unfold Array.findIndex.
  assert (list_find (λ x, p x = true) arr = None) as ->; [|done].
  apply list_find_None. eapply Forall_impl; [done |].
  simpl. intros x ->. done.
Qed.

Lemma find_Some {A} (p : A → bool) (arr : list A) (i : nat) (x : A) :
  Array.find p arr = Some (i, x) ↔
  arr !! i = Some x ∧ p x = true
  ∧ ∀ j y, arr !! j = Some y → (j < i)%nat → p y = false.
Proof.
  unfold Array.find. rewrite list_find_Some.
  split; intros (? & ? & Hlt); split_and!; try done.
  - intros j y ? ?. apply not_true_is_false. eauto.
  - intros j y Hj Hji Hy. by rewrite (Hlt j y Hj Hji) in Hy.
Qed.

Lemma find_None {A} (p : A → bool) (arr : list A) :
  Array.find p arr = None ↔ Forall (λ x, p x = false) arr.
Proof.
  unfold Array.find. rewrite list_find_None.
  apply Forall_proper; [|done]. intros x.
  by rewrite not_true_iff_false.
Qed.

(** A notebook id matches no notebook exactly when the lookup gives
    [undefined]. *)
Lemma findNotebook_None (db : Store) (notebookId : string) :
  findNotebook db notebookId = None ↔
  ∀ nb, nb ∈ notebooks db → notebook_id nb ≠ notebookId.
Proof.
  unfold findNotebook. rewrite find_None, Forall_forall.
  apply forall_proper; intros nb.
  by rewrite String.eqb_neq.
Qed.

(** The lookup gives the first notebook carrying the id. *)
Lemma findNotebook_Some (db : Store) (notebookId : string) (i : nat)
    (nb : Notebook) :
  findNotebook db notebookId = Some (i, nb) ↔
  notebooks db !! i = Some nb ∧ notebook_id nb = notebookId
  ∧ ∀ j nb', notebooks db !! j = Some nb' → (j < i)%nat →
             notebook_id nb' ≠ notebookId.
Proof.
  unfold findNotebook. rewrite find_Some.
  rewrite String.eqb_eq.
  split; intros (? & ? & Hlt); split_and!; try done.
  - intros j y ? ?. apply String.eqb_neq. eauto.
  - intros j y ? ?. apply String.eqb_neq. eauto.
Qed.

Lemma findNotebook_is_Some (db : Store) (notebookId : string) :
  (∃ nb, nb ∈ notebooks db ∧ notebook_id nb = notebookId) ↔
  ∃ i nb, findNotebook db notebookId = Some (i, nb).
Proof.
  split.
  - intros (nb & Hin & Hid).
    destruct (findNotebook db notebookId) as [[i nb']|] eqn:E; [eauto |].
    rewrite findNotebook_None in E. naive_solver.
  - intros (i & nb & (Hi & Hid & _)%findNotebook_Some).
    exists nb. split; [|done]. by eapply list_elem_of_lookup_2.
Qed.

Lemma findNotebookIndex_Some (db : Store) (notebookId : string) (i : nat)
    (nb : Notebook) :
  findNotebook db notebookId = Some (i, nb) →
  findNotebookIndex db notebookId = Z.of_nat i.
Proof. apply findIndex_Some. Qed.

Lemma findNotebookIndex_None (db : Store) (notebookId : string) :
  (∀ nb, nb ∈ notebooks db → notebook_id nb ≠ notebookId) →
  findNotebookIndex db notebookId = -1.
Proof.
  intros H. apply findIndex_None, Forall_forall. intros nb Hnb.
  apply String.eqb_neq. auto.
Qed.

(** A renaming or a change of the notes of the notebook found leaves it
    where the lookup finds it. *)
Lemma findNotebook_alter (db : Store) (notebookId : string) (i : nat)
    (nb : Notebook) (f : Notebook → Notebook) :
  (∀ x, notebook_id (f x) = notebook_id x) →
  findNotebook db notebookId = Some (i, nb) →
  findNotebook (mkStore (alter f i (notebooks db))) notebookId
  = Some (i, f nb).
Proof.
  intros Hf (Hi & Hid & Hlt)%findNotebook_Some.
  apply findNotebook_Some. simpl. split_and!.
  - by rewrite list_lookup_alter_eq, Hi.
  - by rewrite Hf.
  - intros j nb' Hj Hji.
    rewrite list_lookup_alter_ne in Hj by lia. eauto.
Qed.

End Lookups.

(** ** The operations of [db] *)

Lemma stored_saved (db : Store) : stored db (saved db).
Proof. apply parse_stringify. Qed.

(** [note.id === noteId] holds exactly of the notes whose [id] is the
    string [noteId]. *)
Lemma has_id_true (noteId : string) (n : Note) :
  Utils.has_id noteId n = true ↔ n !! "id" = Some (JStr noteId).
Proof.
  unfold Utils.has_id. destruct (n !! "id") as [[s|z]|]; [|by split..].
  rewrite String.eqb_eq. split; congruence.
Qed.

Lemma has_id_false (noteId : string) (n : Note) :
  Utils.has_id noteId n = false ↔ n !! "id" ≠ Some (JStr noteId).
Proof. rewrite <- has_id_true. by destruct (Utils.has_id noteId n). Qed.

(** C1.  [db.delete.notebook(notebookId)] with an id that matches no
    notebook: [findNotebookIndex] gives [-1], and [splice(-1, 1)] removes the
    last notebook of the store.  The store is left unchanged only when it has
    no notebook at all. *)
Theorem delete_notebook_absent_removes_last (db : Store) (st : State)
    (notebookId : string) :
  stored db st →
  (∀ nb, nb ∈ notebooks db → notebook_id nb ≠ notebookId) →
  Db.delete_notebook notebookId st
  = (Normal (),
     saved (mkStore (take (length (notebooks db) - 1) (notebooks db)))).
Proof.
  intros Hst Habs.
  rewrite (delete_notebook_stored db st Hst).
  by rewrite findNotebookIndex_None, splice_minus_one.
Qed.

(** The sample store loses its second notebook when the absent id 3 is deleted. *)
Lemma delete_notebook_absent_removes_last_witness :
  stored Sample.store (saved Sample.store)
  ∧ (∀ nb, nb ∈ notebooks Sample.store → notebook_id nb ≠ "3")
  ∧ Db.delete_notebook "3" (saved Sample.store)
    = (Normal (), saved (mkStore [Sample.work])).
Proof.
  assert (H1 : stored Sample.store (saved Sample.store)) by apply stored_saved.
  assert (H2 : ∀ nb, nb ∈ notebooks Sample.store → notebook_id nb ≠ "3").
  { intros nb Hnb. apply findNotebook_None with (db := Sample.store);
      [reflexivity | done]. }
  split; [done |]. split; [done |].
  apply (delete_notebook_absent_removes_last Sample.store _ "3" H1 H2).
Defined.

(** C2, as stated, fails: [db.post.note] with an id that matches no notebook
    does not return [undefined]; it returns the note object it has built,
    here the one with id 5. *)
Lemma post_note_absent_returns_note :
  Utils.findNotebook Sample.store "3" = None
  ∧ ∃ noteData : Note,
      (Db.post_note 5 6 "3" (Sample.fields "t" "x") (saved Sample.store)).1
      = Normal noteData
      ∧ noteData !! "id" = Some (JStr "5")
      ∧ noteData !! "notebookId" = Some (JStr "3")
      ∧ noteData !! "title" = Some (JStr "t")
      ∧ noteData !! "postedOn" = Some (JNum 6).
Proof.
  split; [reflexivity |].
  eexists. rewrite (post_note_stored Sample.store _ (stored_saved _)).
  split; [reflexivity |]. by vm_compute.
Qed.

(** C2, amended.  [db.post.note(notebookId, object)] with an id that matches
    no notebook leaves the store as it is, in memory and in the slot, and
    returns the note object built from its arguments, which is stored
    nowhere. *)
Theorem post_note_absent_noop (db : Store) (st : State) (now_id now_posted : Z)
    (notebookId : string) (object : Note) :
  stored db st →
  (∀ nb, nb ∈ notebooks db → notebook_id nb ≠ notebookId) →
  Db.post_note now_id now_posted notebookId object st
  = (Normal (Db.new_note now_id now_posted notebookId object), saved db)
  ∧ stored db (saved db).
Proof.
  intros Hst Habs. split; [|apply stored_saved].
  rewrite (post_note_stored db st Hst).
  apply findNotebook_None in Habs. rewrite Habs. by destruct db.
Qed.

(** A note posted to the absent notebook 3 of the sample store. *)
Lemma post_note_absent_noop_witness :
  Db.post_note 5 6 "3" (Sample.fields "t" "x") (saved Sample.store)
  = (Normal (Db.new_note 5 6 "3" (Sample.fields "t" "x")), saved Sample.store)
  ∧ stored Sample.store (saved Sample.store).
Proof.
  apply (post_note_absent_noop Sample.store (saved Sample.store) 5 6 "3").
  - apply stored_saved.
  - apply findNotebook_None. reflexivity.
Defined.



(** C9, as stated, fails: two notes posted to one notebook while the clock
    reads 5 both get the id 5; the notebook has two notes, one of which has
    the id, and after [db.delete.note] of that id the one note left still
    has it. *)
Lemma delete_note_leaves_same_id :
  let st :=
    run [PostNotebook 1 "Work";
         PostNote 5 5 "1" (Sample.fields "A" "first");
         PostNote 5 5 "1" (Sample.fields "B" "second")]
      empty_state in
  ∃ nb a b remaining,
    notebooks (noteKeeperDB st) = [nb]
    ∧ notebook_id nb = "1"
    ∧ notebook_notes nb = [b; a]
    ∧ b !! "id" = Some (JStr "5")
    ∧ Db.delete_note "1" "5" st
      = (Normal remaining,
         saved (mkStore [mkNotebook "1" "Work" remaining]))
    ∧ remaining = [a]
    ∧ ¬ Forall (λ n : Note, n !! "id" ≠ Some (JStr "5")) remaining.
Proof.
  intros st.
  assert (Hst : stored (noteKeeperDB st) st) by (by vm_compute).
  eexists _, _, _, _. split_and!.
  - reflexivity.
  - reflexivity.
  - reflexivity.
  - reflexivity.
  - rewrite (delete_note_stored _ _ Hst). reflexivity.
  - reflexivity.
  - intros H. apply Forall_cons in H as [H _]. by apply H.
Qed.

(** C9, amended.  [db.delete.note(notebookId, nid)], where the lookup of
    [notebookId] gives the notebook [nb] at position [i]: [nb] is the first
    notebook of the store with the id [notebookId].  When exactly one of its
    N notes (the note at position [j], and no other) has the id [nid], the
    notebook is left with the N-1 other notes, none of which has the id
    [nid], and that sequence is returned. *)
Theorem delete_note_removes_it (db : Store) (st : State)
    (notebookId nid : string) (i : nat) (nb : Notebook) (j : nat) (n : Note) :
  stored db st →
  Utils.findNotebook db notebookId = Some (i, nb) →
  notebook_notes nb !! j = Some n →
  n !! "id" = Some (JStr nid) →
  (∀ j' n', notebook_notes nb !! j' = Some n' → j' ≠ j →
            n' !! "id" ≠ Some (JStr nid)) →
  let remaining := delete j (notebook_notes nb) in
  let shortened := mkNotebook (notebook_id nb) (notebook_name nb) remaining in
  notebooks db !! i = Some nb
  ∧ notebook_id nb = notebookId
  ∧ (∀ k nb', notebooks db !! k = Some nb' → (k < i)%nat →
              notebook_id nb' ≠ notebookId)
  ∧ Db.delete_note notebookId nid st
    = (Normal remaining, saved (mkStore (<[i := shortened]> (notebooks db))))
  ∧ S (length remaining) = length (notebook_notes nb)
  ∧ Forall (λ n' : Note, n' !! "id" ≠ Some (JStr nid)) remaining.
Proof.
  intros Hst Hnb Hj Hn%has_id_true Hothers' remaining shortened.
  assert (Hothers : ∀ j' n', notebook_notes nb !! j' = Some n' → j' ≠ j →
                             Utils.has_id nid n' = false).
  { intros j' n' Hj' Hne. by apply has_id_false, (Hothers' j' n'). }
  assert (Hlt : (j < length (notebook_notes nb))%nat) by eauto using lookup_lt_Some.
  assert (Hidx : Utils.findNoteIndex nb nid = Z.of_nat j).
  { apply (findIndex_Some _ _ j n), find_Some. split_and!; [done..|].
    intros j' n' Hj' ?. apply (Hothers j' n' Hj'). lia. }
  pose proof (proj1 (findNotebook_Some _ _ _ _) Hnb) as (Hi & Hid & Hfirst).
  split_and!; [done..| | |].
  - rewrite (delete_note_stored db st Hst), Hnb. simpl.
    rewrite (alter_at _ _ _ nb Hi), Hidx. unfold set_notes.
    by rewrite splice_at.
  - subst remaining. rewrite length_delete by eauto. lia.
  - apply Forall_lookup. intros k n' Hk. subst remaining.
    destruct (decide (k < j)%nat).
    + rewrite list_lookup_delete_lt in Hk by done. apply (Hothers' k n' Hk). lia.
    + rewrite list_lookup_delete_ge in Hk by lia. apply (Hothers' _ n' Hk). lia.
Qed.

(** Deleting the note 12 from the notebook 1, the second notebook of the
    sample shelf. *)
Lemma delete_note_removes_it_witness :
  notebooks Sample.shelf !! 1%nat = Some Sample.work
  ∧ notebook_id Sample.work = "1"
  ∧ (∀ k nb', notebooks Sample.shelf !! k = Some nb' → (k < 1)%nat →
              notebook_id nb' ≠ "1")
  ∧ Db.delete_note "1" "12" (saved Sample.shelf)
    = (Normal [Sample.note_a],
       saved (mkStore [Sample.home; mkNotebook "1" "Work" [Sample.note_a]]))
  ∧ 2%nat = length [Sample.note_b; Sample.note_a]
  ∧ Forall (λ n' : Note, n' !! "id" ≠ Some (JStr "12")) [Sample.note_a].
Proof.
  apply (delete_note_removes_it Sample.shelf (saved Sample.shelf)
           "1" "12" 1 Sample.work 0 Sample.note_b).
  - apply stored_saved.
  - reflexivity.
  - reflexivity.
  - reflexivity.
  - intros [|[|j']] n' Hn' Hne; [done| |done].
    by injection Hn' as <-.
Defined.

(** The notebook found keeps its place when a note is put in front of its
    notes. *)
Lemma post_note_found (db : Store) (st : State) (now_id now_posted : Z)
    (notebookId : string) (object : Note) (i : nat) (nb : Notebook) :
  stored db st →
  Utils.findNotebook db notebookId = Some (i, nb) →
  let noteData := Db.new_note now_id now_posted notebookId object in
  let db' := mkStore (alter (set_notes (Array.unshift noteData)) i (notebooks db)) in
  Db.post_note now_id now_posted notebookId object st = (Normal noteData, saved db')
  ∧ Utils.findNotebook db' notebookId
    = Some (i, set_notes (Array.unshift noteData) nb).
Proof.
  intros Hst Hnb noteData db'. split.
  - by rewrite (post_note_stored db st Hst), Hnb.
  - by apply findNotebook_alter.
Qed.



(** C6.  The id of a new note is the clock reading printed in decimal, so
    two calls of [db.post.note] that meet the same reading of the clock give
    their notes the same id. *)
Theorem post_note_same_millisecond_same_id (db : Store) (st : State)
    (notebookId : string) (now tA tB : Z) (objectA objectB : Note) :
  stored db st →
  objectA !! "id" = None →
  objectB !! "id" = None →
  let callA := Db.post_note now tA notebookId objectA st in
  let callB := Db.post_note now tB notebookId objectB callA.2 in
  ∃ A B : Note,
    callA.1 = Normal A ∧ callB.1 = Normal B
    ∧ A !! "id" = Some (JStr (Utils.generateID now))
    ∧ B !! "id" = A !! "id".
Proof.
  intros Hst HA HB callA callB. subst callA callB.
  rewrite (post_note_stored db st Hst). simpl.
  rewrite (post_note_stored _ _ (stored_saved _)). simpl.
  eexists _, _. split_and!; [done..| |].
  - unfold Db.new_note, Object_assign.
    rewrite lookup_insert_ne by done.
    rewrite lookup_union_r by done.
    rewrite lookup_insert_ne by done.
    by rewrite lookup_insert_eq.
  - unfold Db.new_note, Object_assign.
    rewrite !lookup_insert_ne by done.
    rewrite !lookup_union_r by done.
    rewrite !lookup_insert_ne by done.
    by rewrite !lookup_insert_eq.
Qed.

(** Two notes posted to the first sample notebook within one millisecond. *)
Lemma post_note_same_millisecond_same_id_witness :
  let callA :=
    Db.post_note 1700000000123 1700000000123 "1" (Sample.fields "A" "first")
      (saved Sample.store) in
  let callB :=
    Db.post_note 1700000000123 1700000000123 "1" (Sample.fields "B" "second")
      callA.2 in
  ∃ A B : Note,
    callA.1 = Normal A ∧ callB.1 = Normal B
    ∧ A !! "id" = Some (JStr "1700000000123")
    ∧ B !! "id" = A !! "id".
Proof.
  apply (post_note_same_millisecond_same_id Sample.store (saved Sample.store)
           "1" 1700000000123 1700000000123 1700000000123).
  - apply stored_saved.
  - reflexivity.
  - reflexivity.
Defined.

(** The loop of [findNote] stops in the first notebook holding a note with
    the id, at the first such note. *)
Lemma findNote_loop_Some (k : nat) (nbs : list Notebook) (noteId : string)
    (i j : nat) (n : Note) :
  Utils.findNote_loop k nbs noteId = Some (i, j, n) →
  (k ≤ i)%nat
  ∧ ∃ nb, nbs !! (i - k)%nat = Some nb
          ∧ Array.find (Utils.has_id noteId) (notebook_notes nb) = Some (j, n).
Proof.
  revert k. induction nbs as [|nb nbs IH]; intros k H; [done |].
  simpl in H.
  destruct (Array.find (Utils.has_id noteId) (notebook_notes nb))
    as [[j' n']|] eqn:E.
  - injection H as <- <- <-. split; [lia |].
    exists nb. by rewrite Nat.sub_diag.
  - apply IH in H as (Hk & nb' & Hnb' & Hfind). split; [lia |].
    exists nb'. split; [|done].
    replace (i - k)%nat with (S (i - S k)) by lia. done.
Qed.

Lemma findNote_Some (db : Store) (noteId : string) (i j : nat) (n : Note) :
  Utils.findNote db noteId = Some (i, j, n) →
  note_at db i j = Some n ∧ Utils.has_id noteId n = true.
Proof.
  intros (_ & nb & Hnb & (Hj & Hid & _)%find_Some)%findNote_loop_Some.
  rewrite Nat.sub_0_r in Hnb. unfold note_at. by rewrite Hnb.
Qed.

Lemma findNote_loop_None (k : nat) (nbs : list Notebook) (noteId : string) :
  Utils.findNote_loop k nbs noteId = None →
  ∀ nb n, nb ∈ nbs → n ∈ notebook_notes nb → Utils.has_id noteId n = false.
Proof.
  revert k. induction nbs as [|nb nbs IH]; intros k H nb' n Hnb' Hn.
  - by apply elem_of_nil in Hnb'.
  - simpl in H.
    destruct (Array.find (Utils.has_id noteId) (notebook_notes nb))
      as [[j' n']|] eqn:E; [done |].
    apply elem_of_cons in Hnb' as [->|Hnb'].
    + apply find_None in E. by apply (proj1 (Forall_forall _ _) E).
    + by apply (IH (S k) H nb' n).
Qed.

Lemma findNote_loop_first (k : nat) (nbs : list Notebook) (noteId : string)
    (i j : nat) (n : Note) :
  Utils.findNote_loop k nbs noteId = Some (i, j, n) →
  ∀ i' nb' j' n',
    nbs !! i' = Some nb' → notebook_notes nb' !! j' = Some n' →
    Utils.has_id noteId n' = true →
    (i < k + i')%nat ∨ (i = (k + i')%nat ∧ (j ≤ j')%nat).
Proof.
  revert k. induction nbs as [|nb nbs IH]; intros k H i' nb' j' n' Hi' Hj' Hid;
    [done |].
  simpl in H.
  destruct (Array.find (Utils.has_id noteId) (notebook_notes nb))
    as [[j0 n0]|] eqn:E.
  - injection H as <- <- <-.
    destruct i' as [|i']; [|left; lia].
    right. split; [lia |]. injection Hi' as <-.
    apply find_Some in E as (_ & _ & Hfirst).
    destruct (decide (j0 ≤ j')%nat); [done |].
    rewrite (Hfirst j' n' Hj') in Hid by lia. done.
  - destruct i' as [|i'].
    + injection Hi' as <-. apply find_None in E.
      rewrite (proj1 (Forall_lookup _ _) E j' n' Hj') in Hid. done.
    + destruct (IH (S k) H i' nb' j' n' Hi' Hj' Hid) as [?|[? ?]];
        [left | right]; lia.
Qed.


(** A store holds a note with the id exactly when [findNote] finds one. *)
Lemma findNote_is_Some (db : Store) (noteId : string) :
  (∃ nb n, nb ∈ notebooks db ∧ n ∈ notebook_notes nb
           ∧ Utils.has_id noteId n = true) ↔
  ∃ i j n, Utils.findNote db noteId = Some (i, j, n).
Proof.
  split.
  - intros (nb & n & Hnb & Hn & Hid).
    destruct (Utils.findNote db noteId) as [[[i j] n']|] eqn:E; [eauto |].
    rewrite (findNote_loop_None 0 _ _ E nb n Hnb Hn) in Hid. done.
  - intros (i & j & n & (Hat & Hid)%findNote_Some).
    unfold note_at in Hat.
    destruct (notebooks db !! i) as [nb|] eqn:Hi; [|done]. simpl in Hat.
    exists nb, n. eauto using list_elem_of_lookup_2.
Qed.



Lemma fmap_alter_same {A B} (g : A → B) (f : A → A) (i : nat) (l : list A) :
  (∀ x, g (f x) = g x) → g <$> alter f i l = g <$> l.
Proof.
  intros Hgf. apply list_eq. intros k. rewrite !list_lookup_fmap.
  destruct (decide (i = k)) as [<-|Hne].
  - rewrite list_lookup_alter_eq. destruct (l !! i); simpl; by rewrite ?Hgf.
  - by rewrite list_lookup_alter_ne.
Qed.





(** ** Sequences of operations *)

Lemma coherent_saved (db : Store) : coherent (saved db).
Proof. apply stored_saved. Qed.

Lemma initDB_coherent (item : option string) (st : State) :
  Db.initDB item = Some st → coherent st.
Proof.
  unfold Db.initDB. destruct item as [[|c r]|].
  - intros [= <-]. apply (coherent_saved (mkStore [])).
  - destruct (JSON.parse (String c r)) as [db|] eqn:E; [|done].
    by intros [= <-].
  - intros [= <-]. apply (coherent_saved (mkStore [])).
Qed.

(** Whether a call returns or raises, it leaves the module variable equal
    to what the slot holds. *)
Lemma exec_coherent (r : request) (st : State) :
  coherent st → coherent (exec r st).
Proof.
  intros Hst. unfold coherent in Hst. destruct r; simpl.
  - rewrite (post_notebook_stored _ _ Hst). apply coherent_saved.
  - rewrite (post_note_stored _ _ Hst). apply coherent_saved.
  - rewrite (update_notebook_stored _ _ Hst).
    destruct (Utils.findNotebook _ _) as [[i nb]|]; [apply coherent_saved | done].
  - rewrite (update_note_stored _ _ Hst).
    destruct (Utils.findNote _ _) as [[[i j] n]|]; [apply coherent_saved | done].
  - rewrite (delete_notebook_stored _ _ Hst). apply coherent_saved.
  - rewrite (delete_note_stored _ _ Hst).
    destruct (Utils.findNotebook _ _) as [[i nb]|]; [apply coherent_saved | done].
Qed.

Lemma run_coherent (rs : list request) (st : State) :
  coherent st → coherent (run rs st).
Proof.
  revert st. induction rs as [|r rs IH]; intros st Hst; [done |].
  apply IH, exec_coherent, Hst.
Qed.

Lemma Forall_splice {A} (P : A → Prop) (start deleteCount : Z) (arr : list A) :
  Forall P arr → Forall P (Array.splice start deleteCount arr).
Proof.
  intros H. unfold Array.splice.
  apply Forall_app. split; [by apply Forall_take | by apply Forall_drop].
Qed.

Lemma new_note_notebookId (t1 t2 : Z) (notebookId : string) (object : Note) :
  object !! "notebookId" = None →
  Db.new_note t1 t2 notebookId object !! "notebookId" = Some (JStr notebookId).
Proof.
  intros H. unfold Db.new_note, Object_assign.
  rewrite lookup_insert_ne by done.
  rewrite lookup_union_r by done.
  by rewrite lookup_insert_eq.
Qed.

Lemma exec_notes_belong (r : request) (st : State) :
  coherent st → plain_object r →
  notes_belong (noteKeeperDB st) → notes_belong (noteKeeperDB (exec r st)).
Proof.
  intros Hst Hr Hinv. unfold coherent in Hst. unfold notes_belong in *.
  destruct r as [now name|t1 t2 nid object|nid name|noteId object|nid|nid noteId];
    simpl in *.
  - rewrite (post_notebook_stored _ _ Hst). simpl.
    apply Forall_app. split; [done |]. by repeat constructor.
  - rewrite (post_note_stored _ _ Hst). simpl.
    destruct (Utils.findNotebook _ _) as [[i nb]|] eqn:E; [|done].
    apply findNotebook_Some in E as (Hi & Hid & _).
    apply Forall_alter; [done |]. intros nb' Hnb' Hnotes. simpl.
    assert (nb' = nb) as -> by congruence.
    constructor; [|done].
    unfold note_belongs. simpl. rewrite Hid. by apply new_note_notebookId.
  - rewrite (update_notebook_stored _ _ Hst).
    destruct (Utils.findNotebook _ _) as [[i nb]|]; [|done]. simpl.
    apply Forall_alter; [done |]. by intros nb' _ Hnotes.
  - rewrite (update_note_stored _ _ Hst).
    destruct (Utils.findNote _ _) as [[[i j] n]|] eqn:E; [|done]. simpl.
    apply findNote_Some in E as [Hat _]. unfold note_at in Hat.
    apply Forall_alter; [done |]. intros nb Hnb Hnotes. simpl.
    rewrite Hnb in Hat. simpl in Hat.
    apply Forall_alter; [done |]. intros n' Hn' Hbel.
    unfold note_belongs, Object_assign in *.
    by rewrite lookup_union_r.
  - rewrite (delete_notebook_stored _ _ Hst). simpl. by apply Forall_splice.
  - rewrite (delete_note_stored _ _ Hst).
    destruct (Utils.findNotebook _ _) as [[i nb]|] eqn:E; [|done]. simpl.
    apply Forall_alter; [done |]. intros nb' Hnb' Hnotes.
    by apply (Forall_splice (note_belongs nb')).
Qed.

Lemma run_notes_belong_from (rs : list request) (st : State) :
  coherent st → Forall plain_object rs →
  notes_belong (noteKeeperDB st) → notes_belong (noteKeeperDB (run rs st)).
Proof.
  revert st. induction rs as [|r rs IH]; intros st Hst Hrs Hinv; [done |].
  apply Forall_cons in Hrs as [Hr Hrs].
  apply IH; auto using exec_coherent, exec_notes_belong.
Qed.

(** C4, as stated, fails: an object carrying a [notebookId] of its own is
    merged over the note, which then names a notebook other than the one
    holding it. *)
Lemma update_note_breaks_notes_belong :
  ¬ notes_belong
      (noteKeeperDB
         (run [PostNotebook 1 "Work";
               PostNote 2 2 "1" (Sample.fields "t" "x");
               UpdateNote "2" {["notebookId" := JStr "9"]}]
            empty_state)).
Proof.
  intros H. apply (bool_decide_pack _) in H. by vm_compute in H.
Qed.

(** C4, amended.  Starting from the empty store, after any sequence of
    calls of [post.notebook], [post.note], [update.notebook], [update.note],
    [delete.notebook] and [delete.note] in which no object given to
    [post.note] or [update.note] has a [notebookId] property, every note of
    every notebook carries the id of that notebook in its [notebookId], in
    memory and in the slot. *)
Theorem run_notes_belong (rs : list request) :
  Forall plain_object rs →
  let st := run rs empty_state in
  notes_belong (noteKeeperDB st) ∧ stored (noteKeeperDB st) st.
Proof.
  intros Hrs st. split.
  - apply run_notes_belong_from; [apply (coherent_saved (mkStore [])) | done |].
    constructor.
  - apply run_coherent, (coherent_saved (mkStore [])).
Qed.

(** A session of seven calls on the empty store. *)
Lemma run_notes_belong_witness :
  let st :=
    run [PostNotebook 1 "Work";
         PostNote 2 2 "1" (Sample.fields "t" "x");
         UpdateNote "2" {["text" := JStr "y"]};
         PostNote 3 3 "1" (Sample.fields "u" "z");
         DeleteNote "1" "2";
         UpdateNotebook "1" "Office";
         DeleteNotebook "7"]
      empty_state in
  notes_belong (noteKeeperDB st) ∧ stored (noteKeeperDB st) st.
Proof.
  apply run_notes_belong.
  repeat constructor.
Defined.

(** C5.  After any sequence of calls from the state in which [initDB]
    leaves the module, writing the store to the slot and reading it back
    gives the store that was in memory, and [db.get.notebook] and
    [db.get.note] on the reloaded state return what their bodies return on
    the store in memory before the reload.  The store in memory is moreover
    already the one the slot holds, so the same is true of the two
    operations run without the explicit reload. *)
Theorem reload_round_trip (item : option string) (st0 : State)
    (rs : list request) (notebookId : string) :
  Db.initDB item = Some st0 →
  let st := run rs st0 in
  let reloaded := ((Db.writeDB ;; Db.readDB) st).2 in
  JSON.parse (JSON.stringify (noteKeeperDB st)) = Some (noteKeeperDB st)
  ∧ noteKeeperDB reloaded = noteKeeperDB st
  ∧ (Db.get_notebook reloaded).1 = (Db.get_notebook_loaded st).1
  ∧ (Db.get_note notebookId reloaded).1 = (Db.get_note_loaded notebookId st).1
  ∧ (Db.get_notebook st).1 = (Db.get_notebook_loaded st).1
  ∧ (Db.get_note notebookId st).1 = (Db.get_note_loaded notebookId st).1.
Proof.
  intros Hinit st reloaded.
  assert (Hst : coherent st) by eauto using run_coherent, initDB_coherent.
  assert (Hre : reloaded = saved (noteKeeperDB st)).
  { subst reloaded. unfold mbind, JS_bind, Db.writeDB, Db.readDB. simpl.
    by rewrite parse_stringify. }
  assert (Hbody1 : (Db.get_notebook_loaded st).1 = Normal (notebooks (noteKeeperDB st)))
    by done.
  assert (Hbody2 : (Db.get_note_loaded notebookId st).1
                   = match Utils.findNotebook (noteKeeperDB st) notebookId with
                     | Some (_, notebook) => Normal (notebook_notes notebook)
                     | None => Throw TypeError
                     end).
  { unfold Db.get_note_loaded, mbind, JS_bind. simpl.
    by destruct (Utils.findNotebook _ _) as [[? ?]|]. }
  rewrite Hbody1, Hbody2, Hre. split_and!.
  - apply parse_stringify.
  - done.
  - by rewrite (get_notebook_stored _ _ (stored_saved _)).
  - by rewrite (get_note_stored _ _ (stored_saved _)).
  - by rewrite (get_notebook_stored _ _ Hst).
  - by rewrite (get_note_stored _ _ Hst).
Qed.

(** A session of five calls after a start on an empty [localStorage]. *)
Lemma reload_round_trip_witness :
  let st :=
    run [PostNotebook 1 "Work";
         PostNote 2 2 "1" (Sample.fields "t" "x");
         UpdateNote "2" {["text" := JStr "y"]};
         DeleteNote "1" "5"; DeleteNotebook "7"]
      empty_state in
  let reloaded := ((Db.writeDB ;; Db.readDB) st).2 in
  JSON.parse (JSON.stringify (noteKeeperDB st)) = Some (noteKeeperDB st)
  ∧ noteKeeperDB reloaded = noteKeeperDB st
  ∧ (Db.get_notebook reloaded).1 = (Db.get_notebook_loaded st).1
  ∧ (Db.get_note "1" reloaded).1 = (Db.get_note_loaded "1" st).1
  ∧ (Db.get_notebook st).1 = (Db.get_notebook_loaded st).1
  ∧ (Db.get_note "1" st).1 = (Db.get_note_loaded "1" st).1.
Proof.
  apply (reload_round_trip None empty_state).
  reflexivity.
Defined.


(** * Further properties of the code *)

(** ** Identifiers and lookups *)

Lemma Number_toString_inj (a b : Z) : Number_toString a = Number_toString b → a = b.
Proof.
  intros H.
  pose proof (read_number_toString a EmptyString I) as Ha.
  pose proof (read_number_toString b EmptyString I) as Hb.
  rewrite H in Ha. congruence.
Qed.

Lemma new_note_id (t1 t2 : Z) (notebookId : string) (object : Note) :
  object !! "id" = None →
  Db.new_note t1 t2 notebookId object !! "id" = Some (JStr (Utils.generateID t1)).
Proof.
  intros H. unfold Db.new_note, Object_assign.
  rewrite lookup_insert_ne by done.
  rewrite lookup_union_r by done.
  rewrite lookup_insert_ne by done.
  by rewrite lookup_insert_eq.
Qed.

(** X1.  Two calls of [db.post.note] that meet different readings of the
    clock when they generate the id give their notes different ids (the
    objects carrying no id of their own): the decimal text of the reading
    determines the reading. *)
Theorem post_note_distinct_readings_distinct_ids (db : Store) (st : State)
    (notebookId : string) (nowA nowB tA tB : Z) (objectA objectB : Note) :
  stored db st →
  objectA !! "id" = None →
  objectB !! "id" = None →
  nowA ≠ nowB →
  let callA := Db.post_note nowA tA notebookId objectA st in
  let callB := Db.post_note nowB tB notebookId objectB callA.2 in
  ∃ A B : Note,
    callA.1 = Normal A ∧ callB.1 = Normal B ∧ A !! "id" ≠ B !! "id".
Proof.
  intros Hst HA HB Hne callA callB. subst callA callB.
  rewrite (post_note_stored db st Hst). simpl.
  rewrite (post_note_stored _ _ (stored_saved _)). simpl.
  eexists _, _. split_and!; [done..|].
  rewrite !new_note_id by done. intros [= H].
  by apply Number_toString_inj in H.
Qed.

(** Two notes posted to the first sample notebook one millisecond apart. *)
Lemma post_note_distinct_readings_distinct_ids_witness :
  let callA :=
    Db.post_note 1700000000123 1700000000123 "1" (Sample.fields "A" "first")
      (saved Sample.store) in
  let callB :=
    Db.post_note 1700000000124 1700000000124 "1" (Sample.fields "B" "second")
      callA.2 in
  ∃ A B : Note,
    callA.1 = Normal A ∧ callB.1 = Normal B ∧ A !! "id" ≠ B !! "id".
Proof.
  apply (post_note_distinct_readings_distinct_ids Sample.store (saved Sample.store)
           "1" 1700000000123 1700000000124).
  - apply stored_saved.
  - reflexivity.
  - reflexivity.
  - discriminate.
Defined.

(** X2.  [findNotebookIndex] and [findNotebook] agree: either no notebook
    of the store has the id, the index is [-1] and the lookup gives
    [undefined]; or the index is the position of the first notebook with the
    id, inside the array, and the lookup gives that notebook. *)
Theorem findNotebookIndex_agrees (db : Store) (notebookId : string) :
  (Utils.findNotebookIndex db notebookId = -1
   ∧ Utils.findNotebook db notebookId = None
   ∧ ∀ nb, nb ∈ notebooks db → notebook_id nb ≠ notebookId)
  ∨ (∃ (i : nat) (nb : Notebook),
       Utils.findNotebookIndex db notebookId = Z.of_nat i
       ∧ Utils.findNotebook db notebookId = Some (i, nb)
       ∧ (i < length (notebooks db))%nat
       ∧ notebooks db !! i = Some nb
       ∧ notebook_id nb = notebookId
       ∧ ∀ j nb', notebooks db !! j = Some nb' → (j < i)%nat →
                  notebook_id nb' ≠ notebookId).
Proof.
  destruct (Utils.findNotebook db notebookId) as [[i nb]|] eqn:E.
  - right. exists i, nb.
    pose proof (proj1 (findNotebook_Some _ _ _ _) E) as (Hi & Hid & Hlt).
    split_and!; eauto using findNotebookIndex_Some, lookup_lt_Some.
  - left. pose proof (proj1 (findNotebook_None _ _) E) as Habs.
    split_and!; auto using findNotebookIndex_None.
Qed.

Lemma findNote_None_all (db : Store) (noteId : string) :
  Utils.findNote db noteId = None →
  ∀ i j n, note_at db i j = Some n → Utils.has_id noteId n = false.
Proof.
  intros E i j n Hat. unfold note_at in Hat.
  destruct (notebooks db !! i) as [nb|] eqn:Hi; [|done]. simpl in Hat.
  eapply (findNote_loop_None 0 _ _ E nb n); eauto using list_elem_of_lookup_2.
Qed.

(** X3.  [findNote] scans the notebooks in store order and each notebook's
    notes in order: what it finds has the id and comes before every other
    note with the id; it gives [undefined] only when no note of any
    notebook has the id. *)
Theorem findNote_first_in_store_order (db : Store) (noteId : string) :
  match Utils.findNote db noteId with
  | Some (i, j, n) =>
      note_at db i j = Some n
      ∧ Utils.has_id noteId n = true
      ∧ ∀ i' j' n', note_at db i' j' = Some n' →
                    Utils.has_id noteId n' = true →
                    (i < i')%nat ∨ (i = i' ∧ (j ≤ j')%nat)
  | None =>
      ∀ i' j' n', note_at db i' j' = Some n' → Utils.has_id noteId n' = false
  end.
Proof.
  destruct (Utils.findNote db noteId) as [[[i j] n]|] eqn:E.
  - pose proof (findNote_Some _ _ _ _ _ E) as [Hat Hid].
    split_and!; [done..|]. intros i' j' n' Hat' Hid'.
    unfold note_at in Hat'.
    destruct (notebooks db !! i') as [nb'|] eqn:Hi'; [|done]. simpl in Hat'.
    apply (findNote_loop_first 0 _ _ _ _ _ E i' nb' j' n'); done.
  - by apply findNote_None_all.
Qed.

(** X4.  The two note lookups agree: in the notebook where [findNote]
    finds a note, [findNoteIndex] gives the position [findNote] found. *)
Theorem findNoteIndex_agrees_with_findNote (db : Store) (noteId : string)
    (i j : nat) (n : Note) (nb : Notebook) :
  Utils.findNote db noteId = Some (i, j, n) →
  notebooks db !! i = Some nb →
  Utils.findNoteIndex nb noteId = Z.of_nat j
  ∧ notebook_notes nb !! j = Some n.
Proof.
  intros (_ & nb' & Hnb' & Hfind)%findNote_loop_Some Hi.
  rewrite Nat.sub_0_r in Hnb'. assert (nb' = nb) as -> by congruence.
  split; [by apply (findIndex_Some _ _ j n) |].
  by apply find_Some in Hfind as (? & _).
Qed.

(** The note 11 of the sample store. *)
Lemma findNoteIndex_agrees_with_findNote_witness :
  Utils.findNoteIndex Sample.work "11" = 1
  ∧ notebook_notes Sample.work !! 1%nat = Some Sample.note_a.
Proof.
  apply (findNoteIndex_agrees_with_findNote Sample.store "11" 0 1
           Sample.note_a Sample.work); reflexivity.
Defined.

(** ** Greeting and relative time *)

(** X5.  The greeting by hour: night wraps around midnight (before 5 and
    from 20 on, also for hours outside 0..23), morning is 5..11, noon
    12..14, afternoon 15..16 and evening 17..19. *)
Theorem getGreetingMsg_by_hour (h : Z) :
  (Utils.getGreetingMsg h = "Good Night" ↔ h < 5 ∨ 20 ≤ h)
  ∧ (Utils.getGreetingMsg h = "Good Morning" ↔ 5 ≤ h < 12)
  ∧ (Utils.getGreetingMsg h = "Good Noon" ↔ 12 ≤ h < 15)
  ∧ (Utils.getGreetingMsg h = "Good Afternoon" ↔ 15 ≤ h < 17)
  ∧ (Utils.getGreetingMsg h = "Good Evening" ↔ 17 ≤ h < 20).
Proof.
  unfold Utils.getGreetingMsg.
  destruct (Z.ltb_spec h 5); [|destruct (Z.ltb_spec h 12);
    [|destruct (Z.ltb_spec h 15); [|destruct (Z.ltb_spec h 17);
      [|destruct (Z.ltb_spec h 20)]]]];
    split_and!; (split; [intros E; vm_compute in E; try discriminate; lia
                        | intros ?; try lia; reflexivity]).
Qed.

Lemma elapsed_minutes (e : Z) : e / 1000 / 60 = e / 60000.
Proof. rewrite Z.div_div by lia. done. Qed.

Lemma elapsed_hours (e : Z) : e / 1000 / 60 / 60 = e / 3600000.
Proof. rewrite !Z.div_div by lia. done. Qed.

Lemma elapsed_days (e : Z) : e / 1000 / 60 / 60 / 24 = e / 86400000.
Proof. rewrite !Z.div_div by lia. done. Qed.

(** X6.  [getRelativeTime] by elapsed milliseconds [e]: under one minute
    (also for a time in the future) it says Just now; under one hour, the
    whole minutes; under one day, the whole hours; from one day to under
    two, 1 day ago; from two days on, the whole days. *)
Theorem getRelativeTime_by_elapsed (currentTime milliSeconds : Z) :
  let e := currentTime - milliSeconds in
  Utils.getRelativeTime currentTime milliSeconds
  = if e <? 60000 then "Just now"
    else if e <? 3600000 then Number_toString (e / 60000) +:+ " min ago"
    else if e <? 86400000 then Number_toString (e / 3600000) +:+ " hour ago"
    else if e <? 172800000 then "1 day ago"
    else Number_toString (e / 86400000) +:+ " days ago".
Proof.
  intros e. unfold Utils.getRelativeTime. fold e.
  rewrite elapsed_days, elapsed_hours, !elapsed_minutes.
  destruct (Z.ltb_spec e 60000) as [H1|H1].
  { destruct (Z.ltb_spec (e / 60000) 1) as [?|Hm]; [done |].
    exfalso. revert Hm. Z.div_mod_to_equations. lia. }
  destruct (Z.ltb_spec (e / 60000) 1) as [Hm|_].
  { exfalso. revert Hm. Z.div_mod_to_equations. lia. }
  destruct (Z.ltb_spec e 3600000) as [H2|H2].
  { destruct (Z.ltb_spec (e / 60000) 60) as [?|Hm]; [done |].
    exfalso. revert Hm. Z.div_mod_to_equations. lia. }
  destruct (Z.ltb_spec (e / 60000) 60) as [Hm|_].
  { exfalso. revert Hm. Z.div_mod_to_equations. lia. }
  destruct (Z.ltb_spec e 86400000) as [H3|H3].
  { destruct (Z.ltb_spec (e / 3600000) 24) as [?|Hm]; [done |].
    exfalso. revert Hm. Z.div_mod_to_equations. lia. }
  destruct (Z.ltb_spec (e / 3600000) 24) as [Hm|_].
  { exfalso. revert Hm. Z.div_mod_to_equations. lia. }
  destruct (Z.ltb_spec e 172800000) as [H4|H4].
  - assert (e / 86400000 = 1) as -> by (Z.div_mod_to_equations; lia).
    reflexivity.
  - destruct (Z.eqb_spec (e / 86400000) 1) as [Hd|_]; [|done].
    exfalso. revert Hd. Z.div_mod_to_equations. lia.
Qed.

(** ** Creating and deleting *)

(** X7.  [db.post.notebook(name)] returns a notebook with the generated
    id, the given name and no notes, and [db.get.notebook()] then lists the
    notebooks of the store as they were, followed by the new one. *)
Theorem post_notebook_listed_last (db : Store) (st : State) (now : Z)
    (name : string) :
  stored db st →
  let call := Db.post_notebook now name st in
  let notebookData := mkNotebook (Utils.generateID now) name [] in
  call.1 = Normal notebookData
  ∧ (Db.get_notebook call.2).1 = Normal (notebooks db ++ [notebookData]).
Proof.
  intros Hst call notebookData. subst call.
  rewrite (post_notebook_stored db st Hst). simpl. split; [done |].
  by rewrite (get_notebook_stored _ _ (stored_saved _)).
Qed.

(** A third notebook is added to the sample store. *)
Lemma post_notebook_listed_last_witness :
  let call := Db.post_notebook 30 "Trips" (saved Sample.store) in
  call.1 = Normal (mkNotebook "30" "Trips" [])
  ∧ (Db.get_notebook call.2).1
    = Normal [Sample.work; Sample.home; mkNotebook "30" "Trips" []].
Proof.
  apply (post_notebook_listed_last Sample.store (saved Sample.store) 30 "Trips").
  apply stored_saved.
Defined.

(** X8.  [db.delete.notebook(notebookId)] with an id some notebook has
    removes the first notebook with that id, together with its notes, and
    keeps the others in their order; the notebook is no longer found
    afterwards when no other notebook shares the id. *)
Theorem delete_notebook_found (db : Store) (st : State) (notebookId : string)
    (i : nat) (nb : Notebook) :
  stored db st →
  Utils.findNotebook db notebookId = Some (i, nb) →
  let db' := mkStore (delete i (notebooks db)) in
  Db.delete_notebook notebookId st = (Normal (), saved db')
  ∧ S (length (notebooks db')) = length (notebooks db)
  ∧ ((∀ j nb', notebooks db !! j = Some nb' → j ≠ i →
               notebook_id nb' ≠ notebookId) →
     Utils.findNotebook db' notebookId = None).
Proof.
  intros Hst Hnb db'.
  pose proof (proj1 (findNotebook_Some _ _ _ _) Hnb) as (Hi & Hid & Hlt).
  assert (i < length (notebooks db))%nat by eauto using lookup_lt_Some.
  split_and!.
  - rewrite (delete_notebook_stored db st Hst).
    by rewrite (findNotebookIndex_Some _ _ _ _ Hnb), splice_at.
  - subst db'. simpl. rewrite length_delete by eauto. lia.
  - intros Huniq. apply findNotebook_None. intros nb' Hnb'.
    apply list_elem_of_lookup in Hnb' as [k Hk]. simpl in Hk.
    destruct (decide (k < i)%nat).
    + rewrite list_lookup_delete_lt in Hk by done. eapply Huniq; [done | lia].
    + rewrite list_lookup_delete_ge in Hk by lia. eapply Huniq; [done | lia].
Qed.

(** The first sample notebook is deleted. *)
Lemma delete_notebook_found_witness :
  let db' := mkStore [Sample.home] in
  Db.delete_notebook "1" (saved Sample.store) = (Normal (), saved db')
  ∧ S (length (notebooks db')) = length (notebooks Sample.store)
  ∧ ((∀ j nb', notebooks Sample.store !! j = Some nb' → j ≠ 0%nat →
               notebook_id nb' ≠ "1") →
     Utils.findNotebook db' "1" = None).
Proof.
  apply (delete_notebook_found Sample.store (saved Sample.store) "1" 0 Sample.work).
  - apply stored_saved.
  - reflexivity.
Defined.

(** X9.  Creating a notebook and deleting it by the id it was given
    leaves the store as it was, provided no notebook already had that id. *)
Theorem post_then_delete_notebook (db : Store) (st : State) (now : Z)
    (name : string) :
  stored db st →
  (∀ nb, nb ∈ notebooks db → notebook_id nb ≠ Utils.generateID now) →
  Db.delete_notebook (Utils.generateID now) (Db.post_notebook now name st).2
  = (Normal (), saved db).
Proof.
  intros Hst Hfresh.
  rewrite (post_notebook_stored db st Hst). simpl.
  set (nbData := mkNotebook (Utils.generateID now) name []).
  assert (Hfind : Utils.findNotebook (mkStore (notebooks db ++ [nbData]))
                    (Utils.generateID now)
                  = Some (length (notebooks db), nbData)).
  { apply findNotebook_Some. simpl. split_and!.
    - by rewrite lookup_app_r, Nat.sub_diag.
    - done.
    - intros j nb' Hj Hlt. rewrite lookup_app_l in Hj by done.
      eauto using list_elem_of_lookup_2. }
  rewrite (delete_notebook_stored _ _ (stored_saved _)).
  rewrite (findNotebookIndex_Some _ _ _ _ Hfind). simpl.
  rewrite splice_at by (rewrite length_app; simpl; lia).
  rewrite delete_take_drop, take_app_length.
  rewrite drop_ge by (rewrite length_app; simpl; lia).
  rewrite (right_id_L [] (++)). by destruct db.
Qed.

(** A notebook added to the sample store and deleted again. *)
Lemma post_then_delete_notebook_witness :
  Db.delete_notebook "30" (Db.post_notebook 30 "Trips" (saved Sample.store)).2
  = (Normal (), saved Sample.store).
Proof.
  apply (post_then_delete_notebook Sample.store (saved Sample.store) 30 "Trips").
  - apply stored_saved.
  - apply findNotebook_None. reflexivity.
Defined.

Lemma new_note_has_id (t1 t2 : Z) (notebookId : string) (object : Note) :
  object !! "id" = None →
  Utils.has_id (Utils.generateID t1) (Db.new_note t1 t2 notebookId object) = true.
Proof.
  intros H. unfold Utils.has_id. rewrite new_note_id by done.
  apply String.eqb_refl.
Qed.

(** X10.  Posting a note and deleting it by the id it was given leaves
    the store as it was, and the delete returns the notes the notebook had
    before: the new note is at the head of the notes, where the search for
    its id stops, also when an older note has the same id. *)
Theorem post_then_delete_note (db : Store) (st : State) (notebookId : string)
    (i : nat) (nb : Notebook) (now_id now_posted : Z) (object : Note) :
  stored db st →
  Utils.findNotebook db notebookId = Some (i, nb) →
  object !! "id" = None →
  Db.delete_note notebookId (Utils.generateID now_id)
    (Db.post_note now_id now_posted notebookId object st).2
  = (Normal (notebook_notes nb), saved db).
Proof.
  intros Hst Hnb Hobj.
  destruct (post_note_found db st now_id now_posted notebookId object i nb Hst Hnb)
    as [Epost Hfind].
  rewrite Epost. simpl.
  set (noteData := Db.new_note now_id now_posted notebookId object) in *.
  rewrite (delete_note_stored _ _ (stored_saved _)), Hfind. simpl.
  assert (Hidx : Utils.findNoteIndex
                   (set_notes (Array.unshift noteData) nb) (Utils.generateID now_id)
                 = 0).
  { apply (findIndex_Some _ _ 0 noteData), find_Some. simpl.
    split_and!; [done | by apply new_note_has_id | intros; lia]. }
  rewrite Hidx.
  assert (Hsplice : ∀ notes : list Note,
             Array.splice 0 1 (Array.unshift noteData notes) = notes).
  { intros notes. apply (splice_at 0 (noteData :: notes)). simpl. lia. }
  pose proof (proj1 (findNotebook_Some _ _ _ _) Hnb) as (Hi & _ & _).
  f_equal; [by rewrite Hsplice |]. f_equal.
  destruct db as [nbs]. simpl in *. f_equal.
  rewrite list_alter_alter_eq, (alter_at _ _ _ nb Hi).
  apply list_insert_id. rewrite Hi. f_equal.
  destruct nb as [a b notes]. unfold set_notes. simpl. by rewrite Hsplice.
Qed.

(** A note posted to the first sample notebook and deleted again. *)
Lemma post_then_delete_note_witness :
  Db.delete_note "1" "21"
    (Db.post_note 21 22 "1" (Sample.fields "A" "first") (saved Sample.store)).2
  = (Normal [Sample.note_b; Sample.note_a], saved Sample.store).
Proof.
  apply (post_then_delete_note Sample.store (saved Sample.store) "1" 0 Sample.work
           21 22).
  - apply stored_saved.
  - reflexivity.
  - reflexivity.
Defined.

(** ** Absent ids and unreadable storage *)

(** X11.  With an id that matches no notebook, [db.get.note],
    [db.update.notebook] and [db.delete.note] raise a TypeError; the store
    has been read into the module variable and the slot is not written. *)
Theorem absent_notebook_raises (db : Store) (st : State)
    (notebookId name noteId : string) :
  stored db st →
  (∀ nb, nb ∈ notebooks db → notebook_id nb ≠ notebookId) →
  Db.get_note notebookId st = (Throw TypeError, loaded db st)
  ∧ Db.update_notebook notebookId name st = (Throw TypeError, loaded db st)
  ∧ Db.delete_note notebookId noteId st = (Throw TypeError, loaded db st)
  ∧ localStorage (loaded db st) = localStorage st.
Proof.
  intros Hst Habs. apply findNotebook_None in Habs.
  rewrite (get_note_stored db st Hst), (update_notebook_stored db st Hst),
    (delete_note_stored db st Hst), Habs.
  done.
Qed.

(** The notebook 3 is not in the sample store. *)
Lemma absent_notebook_raises_witness :
  let st := saved Sample.store in
  Db.get_note "3" st = (Throw TypeError, st)
  ∧ Db.update_notebook "3" "Trips" st = (Throw TypeError, st)
  ∧ Db.delete_note "3" "11" st = (Throw TypeError, st)
  ∧ localStorage st = localStorage st.
Proof.
  apply (absent_notebook_raises Sample.store (saved Sample.store) "3" "Trips" "11").
  - apply stored_saved.
  - apply findNotebook_None. reflexivity.
Defined.

Lemma findNote_None (db : Store) (noteId : string) :
  (∀ i j n, note_at db i j = Some n → Utils.has_id noteId n = false) →
  Utils.findNote db noteId = None.
Proof.
  intros Habs.
  destruct (Utils.findNote db noteId) as [[[i j] n]|] eqn:E; [|done].
  apply findNote_Some in E as [Hat Hid].
  by rewrite (Habs i j n Hat) in Hid.
Qed.

(** X12.  With an id that no note of any notebook has,
    [db.update.note] raises a TypeError ([Object.assign] on [undefined])
    and the slot is not written. *)
Theorem update_note_absent_raises (db : Store) (st : State) (noteId : string)
    (object : Note) :
  stored db st →
  (∀ i j n, note_at db i j = Some n → Utils.has_id noteId n = false) →
  Db.update_note noteId object st = (Throw TypeError, loaded db st)
  ∧ localStorage (loaded db st) = localStorage st.
Proof.
  intros Hst Habs.
  by rewrite (update_note_stored db st Hst), (findNote_None _ _ Habs).
Qed.

(** The note 99 is not in the sample store. *)
Lemma update_note_absent_raises_witness :
  let st := saved Sample.store in
  Db.update_note "99" (Sample.fields "t" "x") st = (Throw TypeError, st)
  ∧ localStorage st = localStorage st.
Proof.
  apply (update_note_absent_raises Sample.store (saved Sample.store) "99").
  - apply stored_saved.
  - by apply findNote_None_all.
Defined.

Lemma parse_not_json (text : string) :
  JSON.not_json text = true → JSON.parse text = None.
Proof.
  destruct text as [|c r]; [done |]. simpl. intros Hc.
  assert (E : Ascii.eqb "{" c = false).
  { destruct (Ascii.eqb_spec "{" c) as [<-|_]; [by vm_compute in Hc | done]. }
  unfold JSON.parse, JSON.read_store.
  rewrite append_String.
  cbn [JSON.expect mbind option_bind]. by rewrite E.
Qed.

(** X13.  When the slot holds a text that is empty or begins with a
    character no JSON text begins with, so that [JSON.parse] raises, every
    operation of [db] raises the SyntaxError at its [readDB()] and changes
    neither the module variable nor the slot. *)
Theorem unreadable_storage_raises (st : State) (r : request)
    (notebookId : string) :
  JSON.not_json (localStorage st) = true →
  exec r st = st
  ∧ Db.get_notebook st = (Throw SyntaxError, st)
  ∧ Db.get_note notebookId st = (Throw SyntaxError, st)
  ∧ (∀ now name, Db.post_notebook now name st = (Throw SyntaxError, st))
  ∧ (∀ t1 t2 object, Db.post_note t1 t2 notebookId object st = (Throw SyntaxError, st))
  ∧ (∀ name, Db.update_notebook notebookId name st = (Throw SyntaxError, st))
  ∧ (∀ noteId object, Db.update_note noteId object st = (Throw SyntaxError, st))
  ∧ Db.delete_notebook notebookId st = (Throw SyntaxError, st)
  ∧ (∀ noteId, Db.delete_note notebookId noteId st = (Throw SyntaxError, st)).
Proof.
  intros Hbad%parse_not_json.
  assert (Hread : Db.readDB st = (Throw SyntaxError, st)).
  { unfold Db.readDB. by rewrite Hbad. }
  split_and!; [destruct r; simpl | ..]; intros;
    unfold Db.post_notebook, Db.post_note, Db.get_notebook, Db.get_note,
      Db.update_notebook, Db.update_note, Db.delete_notebook, Db.delete_note,
      mbind, JS_bind;
    by rewrite Hread.
Qed.

(** A slot holding a text that is not JSON. *)
Lemma unreadable_storage_raises_witness :
  let st := mkState Sample.store "oops" in
  exec (DeleteNotebook "1") st = st
  ∧ Db.get_notebook st = (Throw SyntaxError, st)
  ∧ Db.get_note "1" st = (Throw SyntaxError, st)
  ∧ (∀ now name, Db.post_notebook now name st = (Throw SyntaxError, st))
  ∧ (∀ t1 t2 object, Db.post_note t1 t2 "1" object st = (Throw SyntaxError, st))
  ∧ (∀ name, Db.update_notebook "1" name st = (Throw SyntaxError, st))
  ∧ (∀ noteId object, Db.update_note noteId object st = (Throw SyntaxError, st))
  ∧ Db.delete_notebook "1" st = (Throw SyntaxError, st)
  ∧ (∀ noteId, Db.delete_note "1" noteId st = (Throw SyntaxError, st)).
Proof.
  apply (unreadable_storage_raises (mkState Sample.store "oops")
           (DeleteNotebook "1") "1").
  reflexivity.
Defined.

(** X14.  Reloading the page after a session: [initDB] on the text the
    session left in the slot gives back the state the session ended in. *)
Theorem initDB_restores_session (item : option string) (st0 : State)
    (rs : list request) :
  Db.initDB item = Some st0 →
  Db.initDB (Some (localStorage (run rs st0))) = Some (run rs st0).
Proof.
  intros Hinit.
  assert (Hst : coherent (run rs st0)) by eauto using run_coherent, initDB_coherent.
  destruct (run rs st0) as [db text]. unfold coherent, stored in Hst.
  simpl in *. unfold Db.initDB.
  destruct text as [|c r]; [done |]. by rewrite Hst.
Qed.

(** A session of four calls after a start on an empty [localStorage]. *)
Lemma initDB_restores_session_witness :
  let st :=
    run [PostNotebook 1 "Work"; PostNote 2 2 "1" (Sample.fields "t" "x");
         UpdateNote "2" {["text" := JStr "y"]}; DeleteNote "1" "5"]
      empty_state in
  Db.initDB (Some (localStorage st)) = Some st.
Proof.
  apply (initDB_restores_session None empty_state).
  reflexivity.
Defined.

(** ** What a call changes and what it keeps *)

(** X15.  The note [db.post.note] builds: [postedOn] is always the clock
    reading, whatever the object carries; [id] and [notebookId] are taken
    from the object when it has them, and are the generated id and the
    given notebook id otherwise; every other property is the object's. *)
Theorem new_note_properties (now_id now_posted : Z) (notebookId : string)
    (object : Note) :
  let noteData := Db.new_note now_id now_posted notebookId object in
  noteData !! "postedOn" = Some (JNum now_posted)
  ∧ noteData !! "id"
    = Some (default (JStr (Utils.generateID now_id)) (object !! "id"))
  ∧ noteData !! "notebookId"
    = Some (default (JStr notebookId) (object !! "notebookId"))
  ∧ ∀ k, k ≠ "postedOn" → k ≠ "id" → k ≠ "notebookId" →
         noteData !! k = object !! k.
Proof.
  intros noteData. subst noteData. unfold Db.new_note, Object_assign.
  split_and!.
  - apply lookup_insert_eq.
  - rewrite lookup_insert_ne by done. rewrite lookup_union.
    rewrite lookup_insert_ne by done. rewrite lookup_insert_eq.
    by destruct (object !! "id").
  - rewrite lookup_insert_ne by done. rewrite lookup_union.
    rewrite lookup_insert_eq.
    by destruct (object !! "notebookId").
  - intros k H1 H2 H3. rewrite lookup_insert_ne by done.
    rewrite lookup_union, !lookup_insert_ne by done.
    rewrite lookup_empty. by destruct (object !! k).
Qed.



(** X17.  Renaming a notebook twice is renaming it once with the second
    name. *)
Theorem update_notebook_last_wins (db : Store) (st : State)
    (notebookId name1 name2 : string) (i : nat) (nb : Notebook) :
  stored db st →
  Utils.findNotebook db notebookId = Some (i, nb) →
  Db.update_notebook notebookId name2 (Db.update_notebook notebookId name1 st).2
  = Db.update_notebook notebookId name2 st.
Proof.
  intros Hst Hnb.
  rewrite !(update_notebook_stored db st Hst), Hnb. simpl.
  rewrite (update_notebook_stored _ _ (stored_saved _)).
  rewrite (findNotebook_alter db notebookId i nb (set_name name1)) by done.
  simpl. rewrite list_alter_alter_eq. done.
Qed.

(** The first sample notebook is renamed twice. *)
Lemma update_notebook_last_wins_witness :
  Db.update_notebook "1" "Office" (Db.update_notebook "1" "Desk" (saved Sample.store)).2
  = Db.update_notebook "1" "Office" (saved Sample.store).
Proof.
  apply (update_notebook_last_wins Sample.store (saved Sample.store) "1" "Desk"
           "Office" 0 Sample.work).
  - apply stored_saved.
  - reflexivity.
Defined.

(** X18.  [db.update.note] with an object without properties returns the
    note unchanged and stores the store unchanged. *)
Theorem update_note_empty_object (db : Store) (st : State) (noteId : string)
    (i j : nat) (oldNote : Note) :
  stored db st →
  Utils.findNote db noteId = Some (i, j, oldNote) →
  Db.update_note noteId ∅ st = (Normal oldNote, saved db).
Proof.
  intros Hst Hfind.
  rewrite (update_note_stored db st Hst), Hfind.
  unfold Object_assign. rewrite (left_id_L ∅ (∪)).
  do 3 f_equal. destruct db as [nbs]. f_equal. simpl.
  apply list_alter_id. intros [a b notes]. unfold set_notes. simpl. f_equal.
  apply list_alter_id. intros n. apply (left_id_L ∅ (∪)).
Qed.

(** The note 11 of the sample store is updated with nothing. *)
Lemma update_note_empty_object_witness :
  Db.update_note "11" ∅ (saved Sample.store)
  = (Normal Sample.note_a, saved Sample.store).
Proof.
  apply (update_note_empty_object Sample.store (saved Sample.store) "11" 0 1).
  - apply stored_saved.
  - reflexivity.
Defined.

Lemma exec_keeps_notebook_ids (st : State) (r : request) :
  coherent st →
  match r with
  | PostNotebook _ _ | DeleteNotebook _ => False
  | _ => True
  end →
  notebook_id <$> notebooks (noteKeeperDB (exec r st))
  = notebook_id <$> notebooks (noteKeeperDB st).
Proof.
  intros Hst Hr. unfold coherent in Hst.
  destruct r as [now name|t1 t2 nid object|nid name|noteId object|nid|nid noteId];
    simpl in *; try done.
  - rewrite (post_note_stored _ _ Hst). simpl.
    destruct (Utils.findNotebook _ _) as [[i nb]|]; [|done].
    by apply fmap_alter_same.
  - rewrite (update_notebook_stored _ _ Hst).
    destruct (Utils.findNotebook _ _) as [[i nb]|]; [|done]. simpl.
    by apply fmap_alter_same.
  - rewrite (update_note_stored _ _ Hst).
    destruct (Utils.findNote _ _) as [[[i j] n]|]; [|done]. simpl.
    by apply fmap_alter_same.
  - rewrite (delete_note_stored _ _ Hst).
    destruct (Utils.findNotebook _ _) as [[i nb]|]; [|done]. simpl.
    by apply fmap_alter_same.
Qed.

(** X19.  [db.post.note], [db.update.notebook], [db.update.note] and
    [db.delete.note] never add, remove, reorder or re-identify a notebook:
    the sequence of notebook ids after the call is the one before, whether
    the call returns or raises. *)
Theorem notebook_ids_kept (st : State) (r : request) :
  coherent st →
  match r with
  | PostNotebook _ _ | DeleteNotebook _ => False
  | _ => True
  end →
  notebook_id <$> notebooks (noteKeeperDB (exec r st))
  = notebook_id <$> notebooks (noteKeeperDB st).
Proof. apply exec_keeps_notebook_ids. Qed.

(** A note is deleted from the sample store. *)
Lemma notebook_ids_kept_witness :
  notebook_id <$> notebooks (noteKeeperDB (exec (DeleteNote "1" "11") (saved Sample.store)))
  = notebook_id <$> notebooks (noteKeeperDB (saved Sample.store)).
Proof.
  apply (notebook_ids_kept (saved Sample.store) (DeleteNote "1" "11")).
  - apply coherent_saved.
  - exact I.
Defined.

(** [splice(findIndex(p), 1)] takes one element away from an array that
    has any, found or not, and keeps the others in order. *)
Lemma splice_findIndex {A} (p : A → bool) (arr : list A) :
  let rest := Array.splice (Array.findIndex p arr) 1 arr in
  length rest = (length arr - 1)%nat ∧ sublist rest arr.
Proof.
  intros rest. subst rest. unfold Array.findIndex.
  destruct (list_find (λ x, p x = true) arr) as [[i x]|] eqn:E.
  - apply list_find_Some in E as (Hi & _ & _).
    assert (i < length arr)%nat by eauto using lookup_lt_Some.
    rewrite splice_at by done. split.
    + rewrite length_delete by eauto. lia.
    + apply sublist_delete.
  - rewrite splice_minus_one. split.
    + rewrite length_take. lia.
    + apply sublist_take.
Qed.





(** X22.  Distinct notebook ids stay distinct: a call keeps the notebook
    ids free of repetition, provided that a [db.post.notebook] does not
    generate an id some notebook already has. *)
Theorem notebook_ids_stay_distinct (st : State) (r : request) :
  coherent st →
  NoDup (notebook_id <$> notebooks (noteKeeperDB st)) →
  (∀ now name, r = PostNotebook now name →
     Utils.generateID now ∉ notebook_id <$> notebooks (noteKeeperDB st)) →
  NoDup (notebook_id <$> notebooks (noteKeeperDB (exec r st))).
Proof.
  intros Hst Hnd Hfresh.
  destruct r as [now name|t1 t2 nid object|nid name|noteId object|nid|nid noteId];
    try (rewrite exec_keeps_notebook_ids by done; done).
  - simpl. rewrite (post_notebook_stored _ _ Hst). simpl.
    rewrite fmap_app. apply NoDup_app. split_and!; [done | | apply NoDup_singleton].
    intros x Hx [->|[]%elem_of_nil]%elem_of_cons.
    by apply (Hfresh now name).
  - simpl. rewrite (delete_notebook_stored _ _ Hst). simpl.
    eapply sublist_NoDup; [done |].
    apply fmap_sublist, splice_findIndex.
Qed.

(** A notebook with a fresh id is added to the sample store. *)
Lemma notebook_ids_stay_distinct_witness :
  NoDup (notebook_id
           <$> notebooks (noteKeeperDB (exec (PostNotebook 30 "Trips")
                                          (saved Sample.store)))).
Proof.
  apply (notebook_ids_stay_distinct (saved Sample.store) (PostNotebook 30 "Trips")).
  - apply coherent_saved.
  - by apply (bool_decide_unpack _).
  - intros now name [= <- <-]. by apply (bool_decide_unpack _).
Defined.

(** A change of one element that the test does not see leaves [find] at
    the same position. *)
Lemma find_alter {A} (p : A → bool) (f : A → A) (j : nat) (arr : list A) :
  (∀ x, p (f x) = p x) →
  Array.find p (alter f j arr)
  = (λ kx : nat * A, (kx.1, if decide (kx.1 = j) then f kx.2 else kx.2))
      <$> Array.find p arr.
Proof.
  intros Hf. destruct (Array.find p arr) as [[k x]|] eqn:E; simpl.
  - apply find_Some in E as (Hk & Hp & Hlt). apply find_Some. split_and!.
    + destruct (decide (k = j)) as [->|Hne].
      * by rewrite list_lookup_alter_eq, Hk.
      * by rewrite list_lookup_alter_ne.
    + destruct (decide (k = j)); by rewrite ?Hf.
    + intros k' y Hk' Hlt'. destruct (decide (j = k')) as [->|Hne].
      * rewrite list_lookup_alter_eq in Hk'.
        destruct (arr !! k') as [y'|] eqn:Ey; [|done].
        injection Hk' as <-. rewrite Hf. eauto.
      * rewrite list_lookup_alter_ne in Hk' by done. eauto.
  - apply find_None in E. apply find_None.
    apply Forall_alter; [done |]. intros x _ Hx. by rewrite Hf.
Qed.

Lemma findNote_loop_alter (k : nat) (nbs : list Notebook) (noteId : string)
    (i j : nat) (f : Note → Note) (n : Note) :
  (∀ x, Utils.has_id noteId (f x) = Utils.has_id noteId x) →
  Utils.findNote_loop k nbs noteId = Some ((k + i)%nat, j, n) →
  Utils.findNote_loop k (alter (set_notes (alter f j)) i nbs) noteId
  = Some ((k + i)%nat, j, f n).
Proof.
  intros Hf. revert k i. induction nbs as [|nb nbs IH]; intros k i H; [done |].
  simpl in H. destruct i as [|i]; simpl.
  - rewrite find_alter by done.
    destruct (Array.find (Utils.has_id noteId) (notebook_notes nb))
      as [[j0 n0]|] eqn:E; simpl.
    + injection H as _ <- <-. rewrite decide_True by done.
      by rewrite Nat.add_0_r.
    + apply findNote_loop_Some in H as [? _]. lia.
  - destruct (Array.find (Utils.has_id noteId) (notebook_notes nb))
      as [[j0 n0]|] eqn:E.
    + injection H as ? _ _. lia.
    + replace (k + S i)%nat with (S k + i)%nat in * by lia. by apply IH.
Qed.

(** X23.  [db.update.note] is idempotent: with an object that carries no
    [id], a second call with the same arguments finds the same note and
    returns and stores exactly what the first call did. *)
Theorem update_note_twice (db : Store) (st : State) (noteId : string)
    (object : Note) (i j : nat) (oldNote : Note) :
  stored db st →
  Utils.findNote db noteId = Some (i, j, oldNote) →
  object !! "id" = None →
  let call := Db.update_note noteId object st in
  Db.update_note noteId object call.2 = call.
Proof.
  intros Hst Hfind Hobj call. subst call.
  rewrite (update_note_stored db st Hst), Hfind. simpl.
  set (f := λ note : Note, Object_assign note object).
  assert (Hff : ∀ x, f (f x) = f x).
  { intros x. unfold f, Object_assign.
    by rewrite (assoc_L (∪)), (idemp_L (∪)). }
  assert (Hid : ∀ x, Utils.has_id noteId (f x) = Utils.has_id noteId x).
  { intros x. unfold Utils.has_id, f, Object_assign.
    by rewrite lookup_union_r. }
  rewrite (update_note_stored _ _ (stored_saved _)).
  unfold Utils.findNote in *. simpl.
  rewrite (findNote_loop_alter 0 _ noteId i j f oldNote Hid Hfind). simpl.
  change (Object_assign (f oldNote) object) with (f (f oldNote)).
  change (Object_assign oldNote object) with (f oldNote).
  change (λ note : Note, Object_assign note object) with f.
  rewrite Hff. do 3 f_equal.
  rewrite list_alter_alter_eq. apply list_alter_ext; [|done].
  intros nb _. unfold set_notes. simpl. f_equal.
  rewrite list_alter_alter_eq. apply list_alter_ext; [|done].
  intros x _. apply Hff.
Qed.

(** The text of the note 11 of the sample store is replaced twice. *)
Lemma update_note_twice_witness :
  let call := Db.update_note "11" {["text" := JStr "x"]} (saved Sample.store) in
  Db.update_note "11" {["text" := JStr "x"]} call.2 = call.
Proof.
  apply (update_note_twice Sample.store (saved Sample.store) "11" _ 0 1
           Sample.note_a).
  - apply stored_saved.
  - reflexivity.
  - reflexivity.
Defined.

(** X26.  A notebook created with an id that an older notebook already
    has is hidden behind it: lookups by the id still find the older
    notebook, so [db.get.note] returns the older notebook's notes and not
    the empty notes of the new one. *)
Theorem post_notebook_same_id_is_shadowed (db : Store) (st : State) (now : Z)
    (name : string) (i : nat) (nb : Notebook) :
  stored db st →
  Utils.findNotebook db (Utils.generateID now) = Some (i, nb) →
  let call := Db.post_notebook now name st in
  Utils.findNotebook (noteKeeperDB call.2) (Utils.generateID now) = Some (i, nb)
  ∧ (Db.get_note (Utils.generateID now) call.2).1 = Normal (notebook_notes nb).
Proof.
  intros Hst Hnb call. subst call.
  rewrite (post_notebook_stored db st Hst). simpl.
  assert (Hfind : Utils.findNotebook
                    (mkStore (notebooks db
                              ++ [mkNotebook (Utils.generateID now) name []]))
                    (Utils.generateID now) = Some (i, nb)).
  { unfold Utils.findNotebook, Array.find in *. simpl.
    by apply list_find_app_l. }
  split; [done |].
  by rewrite (get_note_stored _ _ (stored_saved _)), Hfind.
Qed.

(** A notebook created while the clock reads 1, the id of the first
    sample notebook. *)
Lemma post_notebook_same_id_is_shadowed_witness :
  let call := Db.post_notebook 1 "Trips" (saved Sample.store) in
  Utils.findNotebook (noteKeeperDB call.2) "1" = Some (0%nat, Sample.work)
  ∧ (Db.get_note "1" call.2).1 = Normal [Sample.note_b; Sample.note_a].
Proof.
  apply (post_notebook_same_id_is_shadowed Sample.store (saved Sample.store) 1
           "Trips" 0 Sample.work).
  - apply stored_saved.
  - reflexivity.
Defined.

(** ** The theme toggler *)


(** X25.  The theme chosen by a toggle survives a reload of the page:
    the initialisation on the stored item gives the state the toggle left,
    whatever the preference of the system. *)
Theorem theme_survives_reload (st : Theme.State) (systemThemeIsDark : bool) :
  Theme.init (Theme.stored_theme (Theme.toggleTheme st)) systemThemeIsDark
  = Theme.toggleTheme st.
Proof. reflexivity. Qed.
